(** * The upload panel's job poller, the query panel and the answer renderer

    A shallow embedding of the React components
    [components/DocumentUpload.jsx], [components/QueryPanel.jsx] and
    [components/AnswerDisplay.jsx] of the Construction GraphRAG dashboard.

    React state is a record that the handlers pass along. The server is an
    argument of every handler that [await]s a request: what the request comes
    to, rejection included, is the value of that argument. The closures
    [checkStatus] and [checkJobs] with their captured counter [attempts] are
    values of type [Loop], and a timer that fires runs one of them against the
    server's answers of that round. Everything a handler does to the outside
    (requests, timers, console output) is returned as a list of [Effect]s. *)

From Stdlib Require Import String Ascii List ZArith QArith Lia Bool Arith DecimalString.
From Stdlib Require Floats Uint63.
Import ListNotations.
Local Close Scope Q_scope.
Local Open Scope string_scope.

(** ** JavaScript values used by the components *)

Module Js.

(** [`${n}`] for an integral number. *)
Definition show (n : Z) : string := NilZero.string_of_int (Z.to_int n).

(** [v || d] for a value that is a string, [undefined] or [null]: the empty
    string is falsy too. *)
Definition or_else (v : option string) (d : string) : string :=
  match v with
  | Some (String _ _ as s) => s
  | _ => d
  end.

(** [v === lit] for a value that may be missing. *)
Definition eqs (v : option string) (lit : string) : bool :=
  match v with
  | Some s => String.eqb s lit
  | None => false
  end.

(** A number that is an integer from 0 to 2^53, as the double it is. *)
Definition toNumber (n : Z) : PrimFloat.float := PrimFloat.of_uint63 (Uint63.of_Z n).

(** [Math.round] of a double: the integer nearest to its exact value, a half
    going up. The value of a finite double is [m * 2 ^ e] for its mantissa and
    exponent; [NaN] and the infinities, which [Math.round] returns as they
    are, have no place in [Z] and give 0 here. *)
Definition Math_round (x : PrimFloat.float) : Z :=
  match FloatOps.Prim2SF x with
  | SpecFloat.S754_finite sign m e =>
      let num := if sign then Z.neg m else Z.pos m in
      if (0 <=? e)%Z then (num * 2 ^ e)%Z
      else ((2 * num + 2 ^ (- e)) / (2 * 2 ^ (- e)))%Z
  | _ => 0%Z
  end.

(** [s.includes(sub)]. *)
Fixpoint startsWith (sub s : string) : bool :=
  match sub, s with
  | EmptyString, _ => true
  | String a sub', String b s' => Ascii.eqb a b && startsWith sub' s'
  | String _ _, EmptyString => false
  end.

Fixpoint includes (sub s : string) : bool :=
  startsWith sub s
  || match s with
     | EmptyString => false
     | String _ s' => includes sub s'
     end.

(** [arr.map((x, i) => f(x, i))], counting from [i]. *)
Fixpoint mapi {A B} (f : A -> nat -> B) (i : nat) (arr : list A) : list B :=
  match arr with
  | [] => []
  | x :: rest => f x i :: mapi f (S i) rest
  end.

(** [arr.filter(p).length]. *)
Definition count {A} (p : A -> bool) (arr : list A) : Z :=
  Z.of_nat (length (filter p arr)).

End Js.

(** ** Data *)

(** An entry of the file input; the components read its [name] only. *)
Record File := { name : string }.

(** The body of [GET /job/{id}]. *)
Module Job.
Record data := { status : option string; error : option string }.
End Job.

(** What one status request comes to. *)
Inductive JobReply :=
| Rejected                     (* [fetch] or [response.json()] rejects *)
| JsonNull                     (* the body is the JSON value [null] *)
| JsonObj (d : Job.data).      (* the body is an object *)

(** The server in one polling round: its answer for each job id. *)
Definition Round := string -> JobReply.

(** An element of [details] in the body of [POST /upload-multiple]. *)
Module Srv.
Record detail :=
  { filename : string; status : string; job_id : option string; error : option string }.
End Srv.

Record UploadData := { job_id : option string }.

Record UploadMultipleData :=
  { total_files : Z; successful : Z; failed : Z;
    details : list Srv.detail; job_ids : option (list string) }.

(** The body of a response that is not ok, after [.catch(() => ({}))]. *)
Record ErrorData := { detail : option string }.

(** What an upload request comes to. *)
Inductive UploadReply (D : Type) :=
| FetchRejected (message : string)            (* [fetch] rejects *)
| NotOk (http : Z) (errorData : ErrorData)    (* [!response.ok] *)
| OkBadJson (message : string)                (* ok, [response.json()] rejects *)
| Ok (body : D).
Arguments FetchRejected {D}.
Arguments NotOk {D}.
Arguments OkBadJson {D}.
Arguments Ok {D}.

(** An element of the state [processingDetails]. *)
Module Detail.
Record t :=
  { filename : string; status : string; jobId : option string; error : option string }.
End Detail.

Module Progress.
Record t :=
  { total : option Z; successful : option Z; failed : option Z; completed : option Z }.
End Progress.

(** The [useState] cells of [DocumentUpload]. *)
Record State :=
  { files : list File;
    uploading : bool;
    uploadStatus : string;
    progress : option Progress.t;
    processingDetails : list Detail.t }.

Definition initialState : State :=
  {| files := []; uploading := false; uploadStatus := "";
     progress := None; processingDetails := [] |}.

Definition setFiles v (s : State) : State :=
  {| files := v; uploading := uploading s; uploadStatus := uploadStatus s;
     progress := progress s; processingDetails := processingDetails s |}.
Definition setUploading v (s : State) : State :=
  {| files := files s; uploading := v; uploadStatus := uploadStatus s;
     progress := progress s; processingDetails := processingDetails s |}.
Definition setUploadStatus v (s : State) : State :=
  {| files := files s; uploading := uploading s; uploadStatus := v;
     progress := progress s; processingDetails := processingDetails s |}.
Definition setProgress v (s : State) : State :=
  {| files := files s; uploading := uploading s; uploadStatus := uploadStatus s;
     progress := v; processingDetails := processingDetails s |}.
Definition setProcessingDetails v (s : State) : State :=
  {| files := files s; uploading := uploading s; uploadStatus := uploadStatus s;
     progress := progress s; processingDetails := v |}.

(** ** Effects *)

Inductive Callback := CheckStatus | CheckJobs | OnUploadSuccess.

Inductive Effect :=
| Fetch (method url : string)
| SetTimeout (cb : Callback) (ms : Z)
| ConsoleError (label : string).

Definition jobUrl (jobId : string) : string := "http://localhost:8000/job/" ++ jobId.

(** The closures that a pending poll timer holds, with their captured
    variables. *)
Inductive Loop :=
| Single (jobId : string) (filename : string) (attempts : Z)
| Multi (jobIds : list string) (fileDetails : list Srv.detail) (attempts : Z).

(** What one run of a handler or timer callback leaves behind: the state, the
    poll timer it has set (if any) and its effects in order. *)
Record Step := { after : State; next : option Loop; emitted : list Effect }.

(** ** [DocumentUpload] *)

Inductive Request :=
| PostUpload (file : File)                  (* [POST /upload], field [file] *)
| PostUploadMultiple (fs : list File).      (* [POST /upload-multiple], fields [files] *)

Definition requestEffect (r : Request) : Effect :=
  match r with
  | PostUpload _ => Fetch "POST" "http://localhost:8000/upload"
  | PostUploadMultiple _ => Fetch "POST" "http://localhost:8000/upload-multiple"
  end.

(** The server's side of the two upload endpoints. *)
Record UploadServer :=
  { upload : File -> UploadReply UploadData;
    uploadMultiple : list File -> UploadReply UploadMultipleData }.

Section DocumentUpload.

(** Whether the prop [onUploadSuccess] was passed. *)
Variable onUploadSuccess : bool.

Definition handleFileChange (selectedFiles : list File) (s : State) : State :=
  setProcessingDetails [] (setProgress None (setUploadStatus "" (setFiles selectedFiles s))).

Definition removeFile (index : nat) (s : State) : State :=
  setFiles (firstn index (files s) ++ skipn (S index) (files s)) s.

Definition notifySuccess : list Effect :=
  if onUploadSuccess then [SetTimeout OnUploadSuccess 500] else [].

(** *** Polling one job *)

Definition maxAttempts : Z := 60.

Definition checkStatus (jobId filename : string) (attempts : Z)
    (server : Round) (s : State) : Step :=
  let request := Fetch "GET" (jobUrl jobId) in
  match server jobId with
  | JsonObj data =>
      if Js.eqs (Job.status data) "finished" then
        {| after :=
             setUploadStatus "🎉 Document processed successfully!"
               (setProcessingDetails
                  [ {| Detail.filename := filename; Detail.status := "complete";
                       Detail.jobId := Some jobId; Detail.error := None |} ] s);
           next := None;
           emitted := request :: notifySuccess |}
      else if Js.eqs (Job.status data) "failed" then
        {| after :=
             setUploadStatus
               ("❌ Processing failed: " ++ Js.or_else (Job.error data) "Unknown error")
               (setProcessingDetails
                  [ {| Detail.filename := filename; Detail.status := "failed";
                       Detail.jobId := Some jobId; Detail.error := Job.error data |} ] s);
           next := None;
           emitted := [request] |}
      else if (attempts <? maxAttempts)%Z then
        let attempts := (attempts + 1)%Z in
        let elapsed := (attempts * 2 / 60)%Z in
        {| after :=
             setUploadStatus
               ("⏳ Processing document... (" ++ Js.show elapsed ++ "m "
                ++ Js.show ((attempts * 2) mod 60) ++ "s)") s;
           next := Some (Single jobId filename attempts);
           emitted := [request; SetTimeout CheckStatus 2000] |}
      else
        {| after := setUploadStatus "⚠️ Processing is taking longer than expected..." s;
           next := None;
           emitted := [request] |}
  | Rejected | JsonNull =>
      {| after := s; next := None;
         emitted := [request; ConsoleError "Job status check error:"] |}
  end.

Definition pollJobCompletion (jobId filename : string) (s : State) : Step :=
  {| after := s;
     next := Some (Single jobId filename 0);
     emitted := [SetTimeout CheckStatus 1000] |}.

(** *** Polling the jobs of a batch *)

(** An element of [statuses]: what the inner [try]/[catch] of a request
    returns; [None] is the JSON value [null]. *)
Definition statusOf (r : JobReply) : option Job.data :=
  match r with
  | Rejected => Some {| Job.status := Some "unknown"; Job.error := None |}
  | JsonNull => None
  | JsonObj d => Some d
  end.

(** [statuses]: the results of [Promise.all] over [jobIds.map(...)]. *)
Definition statusesOf (jobIds : list string) (server : Round) : list (option Job.data) :=
  map (fun jobId => statusOf (server jobId)) jobIds.

Definition updatedDetail (detail : Srv.detail) (jobStatus : Job.data) : Detail.t :=
  {| Detail.filename := Srv.filename detail;
     Detail.status :=
       if Js.eqs (Job.status jobStatus) "finished" then "complete"
       else if Js.eqs (Job.status jobStatus) "failed" then "failed"
       else "processing";
     Detail.jobId := Srv.job_id detail;
     Detail.error :=
       if Js.eqs (Job.status jobStatus) "failed" then Job.error jobStatus else None |}.

(** [fileDetails.map((detail, index) => ... statuses[index] ...)]; reading
    [.status] of [undefined] (no such index) or of [null] throws: [None]. *)
Fixpoint updatedDetails (fileDetails : list Srv.detail) (index : nat)
    (statuses : list (option Job.data)) : option (list Detail.t) :=
  match fileDetails with
  | [] => Some []
  | detail :: rest =>
      match nth_error statuses index with
      | Some (Some jobStatus) =>
          match updatedDetails rest (S index) statuses with
          | Some ds => Some (updatedDetail detail jobStatus :: ds)
          | None => None
          end
      | _ => None
      end
  end.

(** The statuses as objects, when none of them is [null]: what
    [statuses.filter(s => s.status === ...)] needs in order not to throw. *)
Fixpoint objects (statuses : list (option Job.data)) : option (list Job.data) :=
  match statuses with
  | [] => Some []
  | Some d :: rest =>
      match objects rest with
      | Some ds => Some (d :: ds)
      | None => None
      end
  | None :: _ => None
  end.

Definition isFinished (s : Job.data) : bool := Js.eqs (Job.status s) "finished".
Definition isFailed (s : Job.data) : bool := Js.eqs (Job.status s) "failed".

Definition withCounts (completed failed : Z) (prev : option Progress.t) : Progress.t :=
  {| Progress.total := match prev with Some p => Progress.total p | None => None end;
     Progress.successful := match prev with Some p => Progress.successful p | None => None end;
     Progress.failed := Some failed;
     Progress.completed := Some completed |}.

(** [Math.round((completed / total) * 100)], in the double arithmetic of the
    code: the quotient is rounded to a double, and so is its product with
    100. [checkJobs] computes it for a positive [total] only. *)
Definition percentOf (completed total : Z) : Z :=
  Js.Math_round
    (PrimFloat.mul (PrimFloat.div (Js.toNumber completed) (Js.toNumber total))
       (Js.toNumber 100)).

(** The status line while jobs are still processing. *)
Definition processingText (completed total percent elapsed failed : Z) : string :=
  "⏳ Processing: " ++ Js.show completed ++ "/" ++ Js.show total
  ++ " complete (" ++ Js.show percent ++ "%) - " ++ Js.show elapsed ++ "m elapsed"
  ++ (if (0 <? failed)%Z then " - " ++ Js.show failed ++ " failed" else "").

(** The status line once no job is processing any more. *)
Definition completeText (total completed failed : Z) : string :=
  if (failed =? 0)%Z then
    "🎉 All " ++ Js.show total ++ " documents processed successfully!"
  else
    "✅ Processing complete: " ++ Js.show completed ++ " successful, "
    ++ Js.show failed ++ " failed".

(** One run of [checkJobs]. [pollJobsCompletion] declares
    [const maxAttempts = 60] next to [attempts] as well; [checkJobs] increments
    [attempts] and reads it for the elapsed minutes only. *)
Definition checkJobs (jobIds : list string) (fileDetails : list Srv.detail)
    (attempts : Z) (server : Round) (s : State) : Step :=
  let total := Z.of_nat (length jobIds) in
  let requests := map (fun jobId => Fetch "GET" (jobUrl jobId)) jobIds in
  let statuses := statusesOf jobIds server in
  let thrown := ConsoleError "Job polling error:" in
  match updatedDetails fileDetails 0 statuses with
  | None => {| after := s; next := None; emitted := requests ++ [thrown] |}
  | Some updated =>
      let s := setProcessingDetails updated s in
      match objects statuses with
      | None => {| after := s; next := None; emitted := requests ++ [thrown] |}
      | Some objs =>
          let completed := Js.count isFinished objs in
          let failed := Js.count isFailed objs in
          let processing := (total - completed - failed)%Z in
          let s := setProgress (Some (withCounts completed failed (progress s))) s in
          if (0 <? processing)%Z then
            let attempts := (attempts + 1)%Z in
            let elapsed := (attempts * 3 / 60)%Z in
            let percent := percentOf completed total in
            {| after :=
                 setUploadStatus (processingText completed total percent elapsed failed) s;
               next := Some (Multi jobIds fileDetails attempts);
               emitted := requests ++ [SetTimeout CheckJobs 3000] |}
          else
            {| after := setUploadStatus (completeText total completed failed) s;
               next := None;
               emitted := requests ++ notifySuccess |}
      end
  end.

Definition pollJobsCompletion (jobIds : list string) (fileDetails : list Srv.detail)
    (s : State) : Step :=
  {| after := s;
     next := Some (Multi jobIds fileDetails 0);
     emitted := [SetTimeout CheckJobs 1000] |}.

(** A poll timer fires. *)
Definition tick (l : Loop) (server : Round) (s : State) : Step :=
  match l with
  | Single jobId filename attempts => checkStatus jobId filename attempts server s
  | Multi jobIds fileDetails attempts => checkJobs jobIds fileDetails attempts server s
  end.

End DocumentUpload.

Section HandleUpload.

Variable onUploadSuccess : bool.

(** The message of the [Error] thrown for a response that is not ok:
    [errorData.detail || `HTTP ${response.status}`]. *)
Definition errorMessage (http : Z) (errorData : ErrorData) : string :=
  Js.or_else (detail errorData) ("HTTP " ++ Js.show http).

(** The [catch] and [finally] blocks of [handleUpload]. *)
Definition uploadFailed (request : Effect) (message : string) (s : State) : Step :=
  {| after := setUploading false (setUploadStatus ("❌ Upload failed: " ++ message) s);
     next := None;
     emitted := [request; ConsoleError "Upload error:"] |}.

(** [data.details.map(detail => ...)] of [handleUpload]. *)
Definition initialDetail (detail : Srv.detail) : Detail.t :=
  {| Detail.filename := Srv.filename detail;
     Detail.status := if String.eqb (Srv.status detail) "queued" then "processing" else "failed";
     Detail.jobId := Srv.job_id detail;
     Detail.error := Srv.error detail |}.

Definition handleUpload (server : UploadServer) (s : State) : Step :=
  if (length (files s) =? 0)%nat then
    {| after := setUploadStatus "Please select at least one file" s;
       next := None; emitted := [] |}
  else if (20 <? length (files s))%nat then
    {| after := setUploadStatus "Maximum 20 files allowed per upload" s;
       next := None; emitted := [] |}
  else
    let s0 :=
      setProcessingDetails [] (setUploadStatus "📤 Uploading files..." (setUploading true s)) in
    match files s with
    | [file] =>
        let request := requestEffect (PostUpload file) in
        match upload server file with
        | FetchRejected message | OkBadJson message => uploadFailed request message s0
        | NotOk http errorData => uploadFailed request (errorMessage http errorData) s0
        | Ok data =>
            let s1 :=
              setProcessingDetails
                [ {| Detail.filename := name file; Detail.status := "processing";
                     Detail.jobId := job_id data; Detail.error := None |} ]
                (setUploadStatus "✅ Upload complete! Processing document..." s0) in
            let polled :=
              match job_id data with
              | Some (String _ _ as jobId) =>
                  pollJobCompletion jobId (name file) s1
              | _ => {| after := s1; next := None; emitted := [] |}
              end in
            {| after := setUploading false (setFiles [] (after polled));
               next := next polled;
               emitted := request :: emitted polled |}
        end
    | selected =>
        let request := requestEffect (PostUploadMultiple selected) in
        match uploadMultiple server selected with
        | FetchRejected message | OkBadJson message => uploadFailed request message s0
        | NotOk http errorData => uploadFailed request (errorMessage http errorData) s0
        | Ok data =>
            let s1 :=
              setProgress
                (Some {| Progress.total := Some (total_files data);
                         Progress.successful := Some (successful data);
                         Progress.failed := Some (failed data);
                         Progress.completed := Some 0%Z |}) s0 in
            let s2 :=
              setUploadStatus
                ("✅ Uploaded " ++ Js.show (successful data) ++ "/"
                 ++ Js.show (total_files data) ++ " files. Processing...") s1 in
            let s3 := setProcessingDetails (map initialDetail (details data)) s2 in
            let polled :=
              match job_ids data with
              | Some ((_ :: _) as jobIds) => pollJobsCompletion jobIds (details data) s3
              | _ => {| after := s3; next := None; emitted := [] |}
              end in
            {| after := setUploading false (setFiles [] (after polled));
               next := next polled;
               emitted := request :: emitted polled |}
        end
    end.

(** *** One poll loop against a server *)

(** The rounds of one poll loop: its timer fires once per element of
    [rounds], for as long as the loop sets a new timer. *)
Fixpoint run (l : option Loop) (s : State) (rounds : list Round) : list Step :=
  match l, rounds with
  | Some l, server :: rest =>
      let st := tick onUploadSuccess l server s in
      st :: run (next st) (after st) rest
  | _, _ => []
  end.

(** The state and the pending timer when [run] is over. *)
Definition final (l : option Loop) (s : State) (steps : list Step) : State * option Loop :=
  match rev steps with
  | st :: _ => (after st, next st)
  | [] => (s, l)
  end.

(** The status requests of a run, in order. *)
Definition requested (steps : list Step) : list string :=
  flat_map
    (fun st =>
       flat_map (fun e => match e with Fetch _ url => [url] | _ => [] end) (emitted st))
    steps.

(** What the panel shows for each file: the [status] of each element of
    [processingDetails]. *)
Definition displayed (s : State) : list string :=
  map Detail.status (processingDetails s).

(** Submission of the selected files followed by the rounds of the poll
    loop it starts: the displayed states after submission and after every
    round. *)
Definition session (uploads : UploadServer) (rounds : list Round) (s : State) :
    list (list string) :=
  let submitted := handleUpload uploads s in
  displayed (after submitted)
  :: map (fun st => displayed (after st)) (run (next submitted) (after submitted) rounds).

(** *** The component with all its pending poll timers *)

Record World := { view : State; timers : list Loop; trace : list Effect }.

Inductive Event :=
| Select (selectedFiles : list File)     (* the file input changes *)
| Remove (index : nat)                   (* a Remove button *)
| Upload (server : UploadServer)         (* the Upload button; the request and the
                                            server's reply are one event *)
| Timer (i : nat) (server : Round).      (* the [i]-th pending poll timer fires *)

Definition settle (w : World) (others : list Loop) (st : Step) : World :=
  {| view := after st;
     timers := others ++ match next st with Some l => [l] | None => [] end;
     trace := trace w ++ emitted st |}.

Definition react (w : World) (e : Event) : World :=
  match e with
  | Select selectedFiles =>
      {| view := handleFileChange selectedFiles (view w);
         timers := timers w; trace := trace w |}
  | Remove index =>
      {| view := removeFile index (view w); timers := timers w; trace := trace w |}
  | Upload server => settle w (timers w) (handleUpload server (view w))
  | Timer i server =>
      match nth_error (timers w) i with
      | Some l =>
          settle w (firstn i (timers w) ++ skipn (S i) (timers w))
            (tick onUploadSuccess l server (view w))
      | None => w
      end
  end.

Definition reacts (w : World) (es : list Event) : World := fold_left react es w.

End HandleUpload.

(** ** [AnswerDisplay] *)

Module Source.
Record t :=
  { is_diagram : bool; filename : option string; page : option Z; score : option Q }.
End Source.

(** The object [QueryPanel] hands to [onQueryResult] and [App] hands on to
    [AnswerDisplay] as the prop [answer]: the parsed body of the response,
    whatever the status of the response. *)
Record Answer :=
  { answer : option string;
    query_type : option string;
    execution_time_ms : option Q;
    sources : option (list Source.t);
    body_detail : option string }.      (* the key [detail] of an error body *)

(** What [{source.score && ` (Score: ${source.score.toFixed(2)})`}] puts
    after the page: nothing for a missing score, the number 0 itself for a
    score of 0, and the text with the score given to [toFixed(2)] otherwise. *)
Inductive ScoreText := NoScore | ZeroScore | ScoreFixed2 (score : Q).

(** One rendered source line. *)
Record SourceEntry :=
  { key : nat; icon : string; shownName : string; shownPage : Z; shownScore : ScoreText }.

Record Rendered :=
  { answerText : string; queryType : string; executionTime : Q;
    sourceEntries : list SourceEntry }.

Definition sourceEntry (source : Source.t) (i : nat) : SourceEntry :=
  {| key := i;
     icon := if Source.is_diagram source then "🔧" else "📄";
     shownName := Js.or_else (Source.filename source) "Unknown";
     shownPage :=
       match Source.page source with
       | Some p => if (p =? 0)%Z then 0%Z else p
       | None => 0%Z
       end;
     shownScore :=
       match Source.score source with
       | Some q => if Qeq_bool q 0%Q then ZeroScore else ScoreFixed2 q
       | None => NoScore
       end |}.

Definition AnswerDisplay (prop : option Answer) : option Rendered :=
  match prop with
  | None => None
  | Some a =>
      let sources := match sources a with Some l => l | None => [] end in
      Some
        {| answerText := Js.or_else (answer a) "No answer available";
           queryType := Js.or_else (query_type a) "general";
           executionTime :=
             match execution_time_ms a with
             | Some q => if Qeq_bool q 0%Q then 0%Q else q
             | None => 0%Q
             end;
           sourceEntries :=
             if (0 <? length sources)%nat then Js.mapi sourceEntry 0 (firstn 5 sources)
             else [] |}
  end.

(** ** [QueryPanel] *)

(** What the request [POST /query] comes to. *)
Inductive QueryReply :=
| QueryRejected (message : string)                        (* [fetch] rejects *)
| QueryBadJson (ok : bool) (http : Z) (message : string)  (* [response.json()] rejects *)
| QueryJson (ok : bool) (http : Z) (data : Answer).       (* a response with a JSON body *)

(** The code points that [String.prototype.trim] removes (WhiteSpace and
    LineTerminator of the language), each as the bytes of its UTF-8 encoding,
    strings being UTF-8 here: U+0009 to U+000D, U+0020, U+00A0, U+1680,
    U+2000 to U+200A, U+2028, U+2029, U+202F, U+205F, U+3000, U+FEFF. *)
Definition bytes (codes : list nat) : string :=
  string_of_list_ascii (map ascii_of_nat codes).

Definition whiteSpace : list string :=
  map bytes
    [ [9]; [10]; [11]; [12]; [13]; [32]; [194; 160]; [225; 154; 128];
      [226; 128; 128]; [226; 128; 129]; [226; 128; 130]; [226; 128; 131];
      [226; 128; 132]; [226; 128; 133]; [226; 128; 134]; [226; 128; 135];
      [226; 128; 136]; [226; 128; 137]; [226; 128; 138];
      [226; 128; 168]; [226; 128; 169]; [226; 128; 175]; [226; 129; 159];
      [227; 128; 128]; [239; 187; 191] ].

(** [s] without the prefix [p], when it starts with it. *)
Fixpoint stripPrefix (p s : string) : option string :=
  match p, s with
  | EmptyString, _ => Some s
  | String a p', String b s' => if Ascii.eqb a b then stripPrefix p' s' else None
  | String _ _, EmptyString => None
  end.

(** [s] without the first of [prefixes] that it starts with. *)
Fixpoint stripOneOf (prefixes : list string) (s : string) : option string :=
  match prefixes with
  | [] => None
  | p :: others =>
      match stripPrefix p s with
      | Some rest => Some rest
      | None => stripOneOf others s
      end
  end.

(** Whether [s] is made of white space only, within [fuel] code points. *)
Fixpoint blankWithin (fuel : nat) (s : string) : bool :=
  match s, fuel with
  | EmptyString, _ => true
  | _, O => false
  | _, S fuel' =>
      match stripOneOf whiteSpace s with
      | Some rest => blankWithin fuel' rest
      | None => false
      end
  end.

(** [!question.trim()]: nothing is left of the question once its white space
    is removed. A code point takes a byte at least, so the length of the
    string is fuel enough. *)
Definition blank (question : string) : bool :=
  blankWithin (String.length question) question.

Definition queryFailed (message : string) : Answer :=
  {| answer := Some ("Query failed: " ++ message);
     query_type := Some "error";
     execution_time_ms := Some 0%Q;
     sources := Some [];
     body_detail := None |}.

(** [handleQuery]: whether a request is issued, and the argument of
    [onQueryResult], for a body that is an object and a callback that returns:
    a body [null] is not among the replies, and were the call in the [try]
    block to throw, the [catch] block would call [onQueryResult] again with
    the failure object. *)
Definition handleQuery (question : string) (server : string -> QueryReply) :
    list Effect * option Answer :=
  if blank question then ([], None)
  else
    let request := Fetch "POST" "http://localhost:8000/query" in
    match server question with
    | QueryJson _ _ data => ([request], Some data)
    | QueryRejected message | QueryBadJson _ _ message => ([request], Some (queryFailed message))
    end.
(** ** Vocabulary of the statements *)

(** The object a status request contributes to [statuses] when its body is
    not [null]. *)
Definition answerOf (r : JobReply) : Job.data :=
  match r with
  | JsonObj d => d
  | _ => {| Job.status := Some "unknown"; Job.error := None |}
  end.

(** A round in which [checkJobs] reads no property of [undefined] or [null]:
    there is a status for every element of [fileDetails], and no body is
    [null]. *)
Definition wellFormed (jobIds : list string) (fileDetails : list Srv.detail)
    (server : Round) : bool :=
  (length fileDetails <=? length jobIds)%nat
  && forallb (fun jobId => match server jobId with JsonNull => false | _ => true end) jobIds.

(** [fileDetails.map(...)] when it does not throw. *)
Definition zipDetails (fileDetails : list Srv.detail) (objs : list Job.data) : list Detail.t :=
  map (fun p => updatedDetail (fst p) (snd p)) (combine fileDetails objs).

Definition isTerminal (d : Job.data) : bool := isFinished d || isFailed d.

(** What the panel shows for a job whose status request was answered with
    the object [d]. *)
Definition displayOf (d : Job.data) : string :=
  if isFinished d then "complete" else if isFailed d then "failed" else "processing".

(** The server answers the status request for [jobId] with an object. *)
Definition answersFor (jobId : string) (server : Round) : bool :=
  match server jobId with
  | JsonObj _ => true
  | _ => false
  end.

(** ... and the object says neither [finished] nor [failed]. *)
Definition pendingFor (jobId : string) (server : Round) : bool :=
  match server jobId with
  | JsonObj d => negb (isTerminal d)
  | _ => false
  end.

(** Some job of the batch is counted as still processing in this round. *)
Definition somePending (jobIds : list string) (server : Round) : bool :=
  existsb (fun jobId => negb (isTerminal (answerOf (server jobId)))) jobIds.

(** The objects of a round of [checkJobs], and the state its setters for
    [processingDetails] and [progress] leave, when the round does not throw. *)
Definition objectsOf (jobIds : list string) (server : Round) : list Job.data :=
  map (fun jobId => answerOf (server jobId)) jobIds.

Definition shownAfter (jobIds : list string) (fileDetails : list Srv.detail)
    (server : Round) (s : State) : State :=
  setProgress
    (Some (withCounts (Js.count isFinished (objectsOf jobIds server))
             (Js.count isFailed (objectsOf jobIds server)) (progress s)))
    (setProcessingDetails (zipDetails fileDetails (objectsOf jobIds server)) s).

Definition takingLonger : string := "⚠️ Processing is taking longer than expected...".

(** What an observer of one round sees of a file list: the displayed states,
    and whether another round is to come. *)
Definition observe (st : Step) : list string * bool :=
  (displayed (after st), match next st with Some _ => true | None => false end).

(** ** Servers and selections used in the examples *)

Definition says (status : string) : Round :=
  fun _ => JsonObj {| Job.status := Some status; Job.error := None |}.

Definition unreachable : Round := fun _ => Rejected.

(** [first] for the job [jobId], [others] for every other job. *)
Definition except (jobId : string) (first others : Round) : Round :=
  fun j => if String.eqb j jobId then first j else others j.

Definition oneFile : State := handleFileChange [ {| name := "a.pdf" |} ] initialState.

Definition twoFiles : State :=
  handleFileChange [ {| name := "a.pdf" |}; {| name := "b.pdf" |} ] initialState.

Definition otherFiles : list File := [ {| name := "c.pdf" |}; {| name := "d.pdf" |} ].

Definition manyFiles : State :=
  handleFileChange (repeat {| name := "a.pdf" |} 21) initialState.

Definition queuedAs (file jobId : string) : Srv.detail :=
  {| Srv.filename := file; Srv.status := "queued";
     Srv.job_id := Some jobId; Srv.error := None |}.

(** A server that queues every upload: job [j1] for a single file, jobs
    [prefix ++ "1"], [prefix ++ "2"] for the first two files of a batch. *)
Definition accepting (prefix : string) : UploadServer :=
  {| upload := fun _ => Ok {| job_id := Some "j1" |};
     uploadMultiple := fun fs =>
       Ok {| total_files := Z.of_nat (length fs);
             successful := Z.of_nat (length fs);
             failed := 0;
             details :=
               match fs with
               | f1 :: f2 :: _ =>
                   [queuedAs (name f1) (prefix ++ "1"); queuedAs (name f2) (prefix ++ "2")]
               | _ => []
               end;
             job_ids := Some [prefix ++ "1"; prefix ++ "2"] |} |}.

(** Two files are selected and uploaded (jobs [a1], [a2]); while their poll
    loop is pending, two other files are selected and uploaded (jobs [b1],
    [b2]). *)
Definition secondBatchSubmitted : World :=
  reacts true {| view := twoFiles; timers := []; trace := [] |}
    [Upload (accepting "a"); Select otherFiles; Upload (accepting "b")].

(** The state right after one file was uploaded and accepted as job [j1]. *)
Definition oneFileSubmitted : State := after (handleUpload (accepting "j") oneFile).

(** The body of an error response of [POST /query]. *)
Definition errorBody (message : string) : Answer :=
  {| answer := None; query_type := None; execution_time_ms := None;
     sources := None; body_detail := Some message |}.

(** ** More of [DocumentUpload]: the file list and what is rendered *)

(** [arr.filter((x, i) => p(i))], counting from [i]. *)
Fixpoint filteri {A} (p : nat -> bool) (i : nat) (arr : list A) : list A :=
  match arr with
  | [] => []
  | x :: rest => if p i then x :: filteri p (S i) rest else filteri p (S i) rest
  end.

(** [removeFile] as the source writes it:
    [setFiles(files.filter((_, i) => i !== index))]. *)
Definition removeFileByFilter (index : nat) (s : State) : State :=
  setFiles (filteri (fun i => negb (i =? index)%nat) 0 (files s)) s.

(** The badge of a file in the File Status list. *)
Definition statusLabel (status : string) : string :=
  if String.eqb status "complete" then "✓ Complete"
  else if String.eqb status "failed" then "✗ Failed"
  else if String.eqb status "processing" then "⏳ Processing"
  else "Queued".

(** The background of the status box, chosen by the mark found in
    [uploadStatus]. *)
Definition statusBackground (uploadStatus : string) : string :=
  if Js.includes "🎉" uploadStatus then "#065f46"
  else if Js.includes "❌" uploadStatus then "#991b1b"
  else if Js.includes "⏳" uploadStatus then "#1e40af"
  else if Js.includes "✅" uploadStatus then "#065f46"
  else "#334155".

(** The timers for [onUploadSuccess] among the effects of a run. *)
Definition notified (steps : list Step) : nat :=
  length
    (filter
       (fun e => match e with SetTimeout OnUploadSuccess _ => true | _ => false end)
       (flat_map emitted steps)).

(** Whether a step wrote to the console. *)
Definition logged (st : Step) : bool :=
  existsb (fun e => match e with ConsoleError _ => true | _ => false end) (emitted st).

(** ** [services/api.js] *)

(** What a request of the api module comes to. *)
Inductive HttpReply (D : Type) :=
| HttpRejected (message : string)                        (* [fetch] rejects *)
| HttpBadJson (ok : bool) (http : Z) (message : string)  (* [response.json()] rejects *)
| HttpJson (ok : bool) (http : Z) (body : D).            (* a response with a JSON body *)
Arguments HttpRejected {D}.
Arguments HttpBadJson {D}.
Arguments HttpJson {D}.

(** A promise that is settled: fulfilled with a value, or rejected with an
    [Error] of that message. *)
Inductive Settled (D : Type) :=
| Fulfilled (value : D)
| Thrown (message : string).
Arguments Fulfilled {D}.
Arguments Thrown {D}.

Module api.

(** The shape of [getMetrics], [query], [uploadDocument],
    [uploadMultipleDocuments] and [getJobStatus]: [if (!response.ok) throw new
    Error(failure); return response.json()]. *)
Definition checked {D} (failure : string) (reply : HttpReply D) : Settled D :=
  match reply with
  | HttpRejected message => Thrown message
  | HttpBadJson ok _ message => if ok then Thrown message else Thrown failure
  | HttpJson ok _ body => if ok then Fulfilled body else Thrown failure
  end.

Definition getMetrics {D} : HttpReply D -> Settled D := checked "Failed to fetch metrics".
Definition query {D} : HttpReply D -> Settled D := checked "Query failed".
Definition uploadDocument {D} : HttpReply D -> Settled D := checked "Upload failed".
Definition uploadMultipleDocuments {D} : HttpReply D -> Settled D := checked "Upload failed".
Definition getJobStatus {D} : HttpReply D -> Settled D := checked "Failed to get job status".

(** [health] returns [response.json()] without a look at [response.ok]. *)
Definition health {D} (reply : HttpReply D) : Settled D :=
  match reply with
  | HttpRejected message | HttpBadJson _ _ message => Thrown message
  | HttpJson _ _ body => Fulfilled body
  end.

End api.

(** ** [App] *)

(** A node and an edge of a query result. *)
Module Node.
Record props := { name : option string }.
Record t := { id : string; label : option string; properties : option props }.
End Node.

Module Edge.
Record t := { source : string; target : string; type : option string }.
End Edge.

(** The body of the response to a query as [App] reads it: the answer that
    [AnswerDisplay] gets, with the keys [nodes] and [edges]. *)
Record QueryData :=
  { shown : Answer; nodes : option (list Node.t); edges : option (list Edge.t) }.

(** The data of the force graph. *)
Module GraphNode.
Record t := { id : string; name : string; type : option string }.
End GraphNode.

Module GraphLink.
Record t := { source : string; target : string; type : option string }.
End GraphLink.

Module Graph.
Record data := { nodes : list GraphNode.t; links : list GraphLink.t }.
End Graph.

Module App.

(** The [useState] cells of [App]; [M] is the type of the metrics object. *)
Record State (M : Type) :=
  { metrics : option M;
    answer : option Answer;
    graphData : Graph.data;
    backendError : option string;
    loading : bool }.
Arguments metrics {M}.
Arguments answer {M}.
Arguments graphData {M}.
Arguments backendError {M}.
Arguments loading {M}.

Definition initial {M} : State M :=
  {| metrics := None; answer := None;
     graphData := {| Graph.nodes := []; Graph.links := [] |};
     backendError := None; loading := true |}.

Definition unavailable : string :=
  "Backend not available. Make sure it's running on http://localhost:8000".

(** The effects of [fetchMetrics] on the state; it also logs its error. *)
Definition fetchMetrics {M} (reply : HttpReply M) (s : State M) : State M :=
  match api.getMetrics reply with
  | Fulfilled data =>
      {| metrics := Some data; answer := answer s; graphData := graphData s;
         backendError := None; loading := loading s |}
  | Thrown _ => s
  end.

(** [checkBackend]; [reply] answers the metrics request it starts once the
    health check has passed. *)
Definition checkBackend {M H} (health : HttpReply H) (reply : HttpReply M)
    (s : State M) : State M :=
  match api.health health with
  | Fulfilled _ =>
      fetchMetrics reply
        {| metrics := metrics s; answer := answer s; graphData := graphData s;
           backendError := None; loading := false |}
  | Thrown _ =>
      {| metrics := metrics s; answer := answer s; graphData := graphData s;
         backendError := Some unavailable; loading := false |}
  end.

Definition graphNode (n : Node.t) : GraphNode.t :=
  {| GraphNode.id := Node.id n;
     GraphNode.name :=
       Js.or_else
         (match Node.properties n with Some p => Node.name p | None => None end)
         (Node.id n);
     GraphNode.type := Node.label n |}.

Definition graphLink (e : Edge.t) : GraphLink.t :=
  {| GraphLink.source := Edge.source e; GraphLink.target := Edge.target e;
     GraphLink.type := Edge.type e |}.

Definition handleQueryResult {M} (data : QueryData) (s : State M) : State M :=
  let s1 :=
    {| metrics := metrics s; answer := Some (shown data); graphData := graphData s;
       backendError := backendError s; loading := loading s |} in
  match nodes data with
  | Some ((_ :: _) as ns) =>
      {| metrics := metrics s1; answer := answer s1;
         graphData :=
           {| Graph.nodes := map graphNode ns;
              Graph.links := match edges data with Some es => map graphLink es | None => [] end |};
         backendError := backendError s1; loading := loading s1 |}
  | _ => s1
  end.

(** Which of the three screens [App] returns. *)
Inductive Screen := Connecting | ConnectionError (message : string) | Dashboard.

Definition screen {M} (s : State M) : Screen :=
  if loading s then Connecting
  else
    match backendError s with
    | Some (String _ _ as message) => ConnectionError message
    | _ => Dashboard
    end.

(** What happens to [App] after it is mounted. *)
Inductive Event (M H : Type) :=
| Retry (health : HttpReply H) (reply : HttpReply M)   (* the button Retry Connection *)
| Interval (reply : HttpReply M)                       (* [setInterval(fetchMetrics, 5000)] *)
| UploadSucceeded (reply : HttpReply M)                (* [onUploadSuccess] of the upload panel *)
| QueryResult (data : QueryData).                      (* [onQueryResult] of the query panel *)
Arguments Retry {M H}.
Arguments Interval {M H}.
Arguments UploadSucceeded {M H}.
Arguments QueryResult {M H}.

Definition react {M H} (s : State M) (e : Event M H) : State M :=
  match e with
  | Retry health reply => checkBackend health reply s
  | Interval reply | UploadSucceeded reply => fetchMetrics reply s
  | QueryResult data => handleQueryResult data s
  end.

(** [App] from its mount on: the health check of the effect, then the events. *)
Definition mounted {M H} (health : HttpReply H) (reply : HttpReply M)
    (es : list (Event M H)) : State M :=
  fold_left react es (checkBackend health reply initial).

End App.

(** ** [GraphVisualization] *)

(** What the panel holds: the force graph of the data, or the text that there
    is no graph data. *)
Inductive GraphPanel := NoGraphData | ForceGraph (data : Graph.data).

Definition GraphVisualization (graphData : option Graph.data) : GraphPanel :=
  match graphData with
  | Some data =>
      if (0 <? length (Graph.nodes data))%nat then ForceGraph data else NoGraphData
  | None => NoGraphData
  end.

(** ** [QueryPanel]: the keyboard *)

(** [handleKeyPress]: Ctrl+Enter runs [handleQuery]. *)
Definition handleKeyPress (key : string) (ctrlKey : bool) (question : string)
    (server : string -> QueryReply) : list Effect * option Answer :=
  if String.eqb key "Enter" && ctrlKey then handleQuery question server else ([], None).

(** ** Vocabulary of the further statements *)

(** The message of the [Error] that the [try] block of [handleUpload] throws
    for a reply, if it throws. *)
Definition thrownBy {D} (reply : UploadReply D) : option string :=
  match reply with
  | FetchRejected message | OkBadJson message => Some message
  | NotOk http errorData => Some (errorMessage http errorData)
  | Ok _ => None
  end.

(** ... for the request that [handleUpload] issues in state [s]. *)
Definition uploadError (server : UploadServer) (s : State) : option string :=
  match files s with
  | [file] => thrownBy (upload server file)
  | selected => thrownBy (uploadMultiple server selected)
  end.

(** The three states that the badge of a file knows by name. *)
Definition knownStatus (status : string) : bool :=
  String.eqb status "complete" || String.eqb status "failed"
  || String.eqb status "processing".

(** A job id that [if (data.job_id)] takes for missing. *)
Definition noJobId (jobId : option string) : bool :=
  match jobId with
  | Some (String _ _) => false
  | _ => true
  end.

(** A list of job ids that [data.job_ids && data.job_ids.length > 0] takes
    for missing. *)
Definition noJobIds (jobIds : option (list string)) : bool :=
  match jobIds with
  | Some (_ :: _) => false
  | _ => true
  end.

(** The status line of [checkStatus] after [attempts] attempts, with the
    minutes and seconds it shows. *)
Definition elapsedText (minutes seconds : Z) : string :=
  "⏳ Processing document... (" ++ Js.show minutes ++ "m " ++ Js.show seconds ++ "s)".

(** A query result that brings nodes: [data.nodes && data.nodes.length > 0]. *)
Definition hasNodes (data : QueryData) : bool :=
  match nodes data with
  | Some (_ :: _) => true
  | _ => false
  end.

(** Whether [percentOf] gives, for every count from 0 to [total], the whole
    percent nearest to [100 * completed / total], a half going up. *)
Definition percentIsNearest (total : Z) : bool :=
  forallb
    (fun completed =>
       (percentOf completed total =? (200 * completed + total) / (2 * total))%Z)
    (map Z.of_nat (seq 0 (S (Z.to_nat total)))).

(** The strings that are made of white space only. *)
Definition spaces (ws : list string) : string := fold_right String.append "" ws.

Definition emptyWorld : World := {| view := initialState; timers := []; trace := [] |}.

(** A batch of three files of which the server queued two. *)
Definition partlyQueued : list Srv.detail :=
  [ queuedAs "a.pdf" "j1";
    {| Srv.filename := "b.pdf"; Srv.status := "failed";
       Srv.job_id := None; Srv.error := Some "not a PDF" |};
    queuedAs "c.pdf" "j2" ].

(** * Properties *)

(** ** Small facts about the JavaScript helpers *)

Lemma mapi_length {A B} (f : A -> nat -> B) (arr : list A) (i : nat) :
  length (Js.mapi f i arr) = length arr.
Proof.
  revert i; induction arr as [|x rest IH]; intros i; simpl; [reflexivity|].
  now rewrite IH.
Qed.

Lemma mapi_nth_error {A B} (f : A -> nat -> B) (arr : list A) (i k : nat) :
  nth_error (Js.mapi f i arr) k = option_map (fun x => f x (i + k)%nat) (nth_error arr k).
Proof.
  revert i k; induction arr as [|x rest IH]; intros i k.
  - now destruct k.
  - destruct k as [|k]; simpl.
    + now rewrite Nat.add_0_r.
    + rewrite IH. now replace (S i + k)%nat with (i + S k)%nat by lia.
Qed.

(** Two filters that never both accept leave room for the rest. *)
Lemma count_split {A} (p q : A -> bool) (arr : list A) :
  (forall x, p x = true -> q x = false) ->
  (Js.count p arr + Js.count q arr
   + Js.count (fun x => negb (p x) && negb (q x)) arr = Z.of_nat (length arr))%Z.
Proof.
  intros Hpq. unfold Js.count.
  enough (length (filter p arr) + length (filter q arr)
          + length (filter (fun x => negb (p x) && negb (q x)) arr) = length arr)%nat by lia.
  induction arr as [|x rest IH]; cbn [filter length]; [reflexivity|].
  destruct (p x) eqn:Hp.
  - rewrite (Hpq x Hp). cbn [negb andb length]. lia.
  - destruct (q x); cbn [negb andb length]; lia.
Qed.

Lemma finished_not_failed (d : Job.data) : isFinished d = true -> isFailed d = false.
Proof.
  unfold isFinished, isFailed, Js.eqs.
  destruct (Job.status d) as [st|]; [|discriminate].
  intros H. apply String.eqb_eq in H. now subst st.
Qed.

(** ** The file limit of [handleUpload] *)

(** C9. With more than 20 files selected, [handleUpload] only sets the
    rejection status: no request, no timer, nothing logged. With 1 to 20
    files selected, the first thing it does to the outside is the upload
    request: [POST /upload] for one file, [POST /upload-multiple] otherwise. *)
Theorem handleUpload_file_limit (server : UploadServer) (s : State) :
  ((20 < length (files s))%nat ->
   handleUpload server s
   = {| after := setUploadStatus "Maximum 20 files allowed per upload" s;
        next := None; emitted := [] |})
  /\ ((1 <= length (files s) <= 20)%nat ->
      exists rest,
        emitted (handleUpload server s)
        = Fetch "POST"
            (if (length (files s) =? 1)%nat then "http://localhost:8000/upload"
             else "http://localhost:8000/upload-multiple") :: rest).
Proof.
  split.
  - intros Hlen. unfold handleUpload.
    destruct (length (files s) =? 0)%nat eqn:H0; [apply Nat.eqb_eq in H0; lia|].
    destruct (20 <? length (files s))%nat eqn:H20; [reflexivity|].
    apply Nat.ltb_ge in H20; lia.
  - intros [Hlo Hhi]. unfold handleUpload.
    destruct (length (files s) =? 0)%nat eqn:H0; [apply Nat.eqb_eq in H0; lia|].
    destruct (20 <? length (files s))%nat eqn:H20; [apply Nat.ltb_lt in H20; lia|].
    destruct (files s) as [|file [|file' more]] eqn:Hfiles; simpl in Hlo; [lia| |].
    + simpl. destruct (upload server file); simpl; eauto.
    + cbn [length Nat.eqb].
      destruct (uploadMultiple server (file :: file' :: more)); simpl; eauto.
Qed.

(** ** One round of [checkJobs] *)

Lemma objects_length statuses objs :
  objects statuses = Some objs -> length objs = length statuses.
Proof.
  revert objs; induction statuses as [|[d|] rest IH]; intros objs H; simpl in H.
  - now inversion H.
  - destruct (objects rest) as [ds|]; [|discriminate].
    inversion H; subst. simpl. now rewrite (IH ds).
  - discriminate.
Qed.

Lemma objects_nth_error statuses objs i :
  objects statuses = Some objs ->
  nth_error statuses i = option_map Some (nth_error objs i).
Proof.
  revert objs i; induction statuses as [|[d|] rest IH]; intros objs i H; simpl in H.
  - inversion H. now destruct i.
  - destruct (objects rest) as [ds|]; [|discriminate].
    inversion H; subst. destruct i as [|i]; simpl; [reflexivity|]. now apply IH.
  - discriminate.
Qed.

Lemma objects_statusesOf jobIds server :
  forallb (fun jobId => match server jobId with JsonNull => false | _ => true end) jobIds = true ->
  objects (statusesOf jobIds server) = Some (map (fun jobId => answerOf (server jobId)) jobIds).
Proof.
  induction jobIds as [|jobId rest IH]; simpl; [reflexivity|].
  intros H. apply andb_prop in H as [H1 H2].
  fold (statusesOf rest server). rewrite (IH H2).
  destruct (server jobId); simpl; try reflexivity. discriminate.
Qed.

Lemma updatedDetails_objects fileDetails statuses objs i :
  objects statuses = Some objs ->
  (i + length fileDetails <= length objs)%nat ->
  updatedDetails fileDetails i statuses = Some (zipDetails fileDetails (skipn i objs)).
Proof.
  intros Hobjs. revert i.
  induction fileDetails as [|detail rest IH]; intros i Hlen; simpl.
  - reflexivity.
  - simpl in Hlen. rewrite (objects_nth_error _ _ i Hobjs).
    destruct (nth_error objs i) as [d|] eqn:Hnth.
    + simpl. rewrite IH by lia.
      assert (Hskip : skipn i objs = d :: skipn (S i) objs).
      { clear - Hnth. revert i Hnth. induction objs as [|x objs IH]; intros [|i] H;
          simpl in *; try discriminate.
        - now inversion H.
        - now apply IH. }
      rewrite Hskip. reflexivity.
    + apply nth_error_None in Hnth. lia.
Qed.

(** What a round of [checkJobs] comes to when it does not throw. *)
Lemma checkJobs_wellFormed cb jobIds fileDetails attempts server s :
  wellFormed jobIds fileDetails server = true ->
  let total := Z.of_nat (length jobIds) in
  let objs := map (fun jobId => answerOf (server jobId)) jobIds in
  let completed := Js.count isFinished objs in
  let failed := Js.count isFailed objs in
  let requests := map (fun jobId => Fetch "GET" (jobUrl jobId)) jobIds in
  let s1 :=
    setProgress (Some (withCounts completed failed (progress s)))
      (setProcessingDetails (zipDetails fileDetails objs) s) in
  checkJobs cb jobIds fileDetails attempts server s
  = if (0 <? total - completed - failed)%Z then
      {| after :=
           setUploadStatus
             (processingText completed total (percentOf completed total)
                ((attempts + 1) * 3 / 60) failed) s1;
         next := Some (Multi jobIds fileDetails (attempts + 1));
         emitted := requests ++ [SetTimeout CheckJobs 3000] |}
    else
      {| after := setUploadStatus (completeText total completed failed) s1;
         next := None;
         emitted := requests ++ notifySuccess cb |}.
Proof.
  intros Hwf. apply andb_prop in Hwf as [Hlen Hnull].
  apply Nat.leb_le in Hlen.
  pose proof (objects_statusesOf jobIds server Hnull) as Hobjs.
  intros total objs completed failed requests s1.
  unfold checkJobs.
  rewrite (updatedDetails_objects fileDetails _ _ 0 Hobjs)
    by (rewrite length_map; simpl; lia).
  rewrite Hobjs. reflexivity.
Qed.

(** ** The sources of [AnswerDisplay] *)

(** C10. For an answer whose [sources] has [m] elements, the renderer shows
    [min m 5] source lines, and line [i] is the rendering of source [i]: the
    first five in list order, whatever the server sent after them. *)
Theorem AnswerDisplay_first_five_sources (a : Answer) (srcs : list Source.t) :
  sources a = Some srcs ->
  exists r,
    AnswerDisplay (Some a) = Some r
    /\ length (sourceEntries r) = Nat.min (length srcs) 5
    /\ forall i,
         nth_error (sourceEntries r) i
         = if (i <? 5)%nat
           then option_map (fun source => sourceEntry source i) (nth_error srcs i)
           else None.
Proof.
  intros Hsrcs. unfold AnswerDisplay. rewrite Hsrcs.
  eexists. split; [reflexivity|]. cbn [sourceEntries].
  destruct srcs as [|src rest].
  - split; [reflexivity|]. intros [|i]; simpl; [reflexivity|].
    now destruct (S i <? 5)%nat.
  - replace (0 <? length (src :: rest))%nat with true by reflexivity.
    split.
    + rewrite mapi_length, length_firstn. apply Nat.min_comm.
    + intros i. rewrite mapi_nth_error, nth_error_firstn. simpl (0 + i)%nat.
      now destruct (i <? 5)%nat.
Qed.

(** ** The poll loop of one job *)

Lemma isTerminal_false d :
  isTerminal d = false -> isFinished d = false /\ isFailed d = false.
Proof. unfold isTerminal. intros H. now apply orb_false_elim in H. Qed.

(** A round in which the job is neither finished nor failed, with attempts
    left: the status line changes, the file list does not, and the timer is
    set again after 2 s. *)
Lemma checkStatus_pending cb jobId filename attempts server s :
  pendingFor jobId server = true ->
  (attempts < maxAttempts)%Z ->
  checkStatus cb jobId filename attempts server s
  = {| after :=
         setUploadStatus
           ("⏳ Processing document... (" ++ Js.show ((attempts + 1) * 2 / 60) ++ "m "
            ++ Js.show (((attempts + 1) * 2) mod 60) ++ "s)") s;
       next := Some (Single jobId filename (attempts + 1));
       emitted := [Fetch "GET" (jobUrl jobId); SetTimeout CheckStatus 2000] |}.
Proof.
  unfold pendingFor, checkStatus. intros Hpending Hlt.
  destruct (server jobId) as [| |d]; try discriminate.
  apply negb_true_iff, isTerminal_false in Hpending as [Hfin Hfail].
  unfold isFinished in Hfin. unfold isFailed in Hfail. rewrite Hfin, Hfail.
  apply Z.ltb_lt in Hlt. now rewrite Hlt.
Qed.

(** A round in which the job is finished or failed is the last one, and shows
    the terminal state. *)
Lemma checkStatus_terminal cb jobId filename attempts server s d :
  server jobId = JsonObj d ->
  isTerminal d = true ->
  displayed (after (checkStatus cb jobId filename attempts server s)) = [displayOf d]
  /\ next (checkStatus cb jobId filename attempts server s) = None.
Proof.
  unfold checkStatus, displayOf. intros Hd Hterm. rewrite Hd.
  fold (isFinished d) (isFailed d).
  destruct (isFinished d) eqn:Hfin; [now split|].
  unfold isTerminal in Hterm. rewrite Hfin in Hterm. simpl in Hterm.
  rewrite Hterm. now split.
Qed.

(** While the job is pending and attempts are left, every round leaves the
    file list as it was and sets the timer again. *)
Lemma run_single_pending cb jobId filename rounds :
  forall attempts s more,
    forallb (pendingFor jobId) rounds = true ->
    (attempts + Z.of_nat (length rounds) <= maxAttempts)%Z ->
    exists steps s',
      run cb (Some (Single jobId filename attempts)) s (rounds ++ more)%list
      = (steps
         ++ run cb (Some (Single jobId filename (attempts + Z.of_nat (length rounds)))) s' more)%list
      /\ length steps = length rounds
      /\ processingDetails s' = processingDetails s
      /\ Forall
           (fun st => processingDetails (after st) = processingDetails s
                      /\ next st <> None
                      /\ uploadStatus (after st) <> takingLonger
                      /\ emitted st = [Fetch "GET" (jobUrl jobId); SetTimeout CheckStatus 2000])
           steps.
Proof.
  induction rounds as [|server rest IH]; intros attempts s more Hpending Hle.
  - exists [], s. simpl. rewrite Z.add_0_r. repeat split. constructor.
  - simpl in Hpending. apply andb_prop in Hpending as [Hthis Hrest].
    cbn [length] in Hle. rewrite Nat2Z.inj_succ in Hle.
    assert (Hlt : (attempts < maxAttempts)%Z) by lia.
    pose proof (checkStatus_pending cb jobId filename attempts server s Hthis Hlt) as Hstep.
    set (s1 := after (checkStatus cb jobId filename attempts server s)).
    destruct (IH (attempts + 1)%Z s1 more Hrest ltac:(lia)) as (steps & s' & Hrun & Hlen & Hsame & Hall).
    assert (Hs1 : processingDetails s1 = processingDetails s)
      by (unfold s1; now rewrite Hstep).
    exists (checkStatus cb jobId filename attempts server s :: steps), s'.
    repeat split.
    + cbn [app run tick]. fold s1. rewrite Hstep at 2. cbn [next].
      rewrite Hrun. cbn [length]. rewrite Nat2Z.inj_succ.
      now replace (attempts + 1 + Z.of_nat (length rest))%Z
        with (attempts + Z.succ (Z.of_nat (length rest)))%Z by lia.
    + cbn [length]. now rewrite Hlen.
    + now rewrite Hsame.
    + constructor.
      * rewrite Hstep. cbn [next uploadStatus emitted after setUploadStatus processingDetails].
        split; [reflexivity|]. split; [discriminate|]. split; [|reflexivity].
        unfold takingLonger. cbn [append]. discriminate.
      * eapply Forall_impl; [|exact Hall]. intros st H. now rewrite <- Hs1.
Qed.

Lemma displayed_unchanged (pd : list Detail.t) (steps : list Step) :
  Forall (fun st => processingDetails (after st) = pd) steps ->
  map (fun st => displayed (after st)) steps
  = repeat (map Detail.status pd) (length steps).
Proof.
  induction 1 as [|st steps Hst _ IH]; simpl; [reflexivity|].
  unfold displayed at 1. now rewrite Hst, IH.
Qed.

(** What [handleUpload] leaves behind for one file that the server accepted
    with a job id. *)
Lemma handleUpload_one_file uploads file jobId s :
  files s = [file] ->
  upload uploads file = Ok {| job_id := Some jobId |} ->
  jobId <> "" ->
  displayed (after (handleUpload uploads s)) = ["processing"]
  /\ next (handleUpload uploads s) = Some (Single jobId (name file) 0).
Proof.
  intros Hfiles Hok Hne. unfold handleUpload. rewrite Hfiles, Hok.
  destruct jobId as [|c jobId]; [contradiction|]. now split.
Qed.

(** What [handleUpload] shows for a batch that the server accepted. *)
Lemma handleUpload_batch uploads data s :
  (2 <= length (files s) <= 20)%nat ->
  uploadMultiple uploads (files s) = Ok data ->
  displayed (after (handleUpload uploads s))
  = map (fun d => if String.eqb (Srv.status d) "queued" then "processing" else "failed")
      (details data).
Proof.
  intros [Hlo Hhi] Hok. unfold handleUpload.
  destruct (files s) as [|f1 [|f2 fs]] eqn:Hfiles; simpl in Hlo; try lia.
  replace (20 <? length (f1 :: f2 :: fs))%nat with false
    by (symmetry; apply Nat.ltb_ge; exact Hhi).
  cbn [length Nat.eqb]. rewrite Hok.
  destruct (job_ids data) as [[|j js]|]; cbn; rewrite map_map; reflexivity.
Qed.

(** C6, as the code has it. A file is never displayed as [queued]. Right after
    submission a file of a batch is displayed as [processing] when the server
    queued it and as [failed] otherwise; a file submitted on its own is
    displayed as [processing], stays so through every status check that says
    neither [finished] nor [failed] (up to 60 of them), and takes its terminal
    state at the first check that says [finished] or [failed]. *)
Theorem displayed_states_after_submission cb uploads s :
  (forall data,
      (2 <= length (files s) <= 20)%nat ->
      uploadMultiple uploads (files s) = Ok data ->
      displayed (after (handleUpload uploads s))
      = map (fun d => if String.eqb (Srv.status d) "queued" then "processing" else "failed")
          (details data))
  /\ (forall file jobId pending last d,
         files s = [file] ->
         upload uploads file = Ok {| job_id := Some jobId |} ->
         jobId <> "" ->
         forallb (pendingFor jobId) pending = true ->
         (length pending <= 60)%nat ->
         last jobId = JsonObj d ->
         isTerminal d = true ->
         session cb uploads (pending ++ [last])%list s
         = (repeat ["processing"] (S (length pending)) ++ [[displayOf d]])%list).
Proof.
  split; [intros data; apply handleUpload_batch|].
  intros file jobId pending last d Hfiles Hok Hne Hpending Hlen Hlast Hterm.
  destruct (handleUpload_one_file uploads file jobId s Hfiles Hok Hne) as [Hshown Hnext].
  unfold session. rewrite Hnext, Hshown.
  set (s0 := after (handleUpload uploads s)) in *.
  destruct (run_single_pending cb jobId (name file) pending 0 s0 [last] Hpending)
    as (steps & s' & Hrun & Hsteps & Hsame & Hall).
  { unfold maxAttempts. lia. }
  rewrite Hrun, map_app.
  rewrite (displayed_unchanged (processingDetails s0) steps)
    by (eapply Forall_impl; [|exact Hall]; now intros st [H _]).
  fold (displayed s0). rewrite Hshown, Hsteps.
  cbn [run tick map next].
  destruct (checkStatus_terminal cb jobId (name file)
              (0 + Z.of_nat (length pending)) last s' d Hlast Hterm) as [Hd Hn].
  rewrite Hd, Hn. reflexivity.
Qed.

(** C6 on one file whose status is [queued] twice and then [finished]: the
    theorem applied to that server. *)
Lemma displayed_states_scenario :
  session true (accepting "j") [says "queued"; says "queued"; says "finished"] oneFile
  = [["processing"]; ["processing"]; ["processing"]; ["complete"]].
Proof.
  exact (proj2 (displayed_states_after_submission true (accepting "j") oneFile)
           {| name := "a.pdf" |} "j1" [says "queued"; says "queued"] (says "finished")
           {| Job.status := Some "finished"; Job.error := None |}
           eq_refl eq_refl ltac:(discriminate) eq_refl ltac:(simpl; lia) eq_refl eq_refl).
Defined.

(** C6 as the specification words it fails: right after submission the file
    is displayed as [processing], not [queued], so the displayed sequence of
    the scenario does not start with [queued]. *)
Lemma submitted_file_is_not_displayed_queued :
  displayed (after (handleUpload (accepting "j") oneFile)) = ["processing"]
  /\ session true (accepting "j") [says "queued"; says "queued"; says "finished"] oneFile
     <> [["queued"]; ["processing"]; ["processing"]; ["complete"]].
Proof. split; [reflexivity|]. vm_compute. discriminate. Qed.

(** ** A failed status request in the poll loop of one job *)

Lemma run_no_timer cb s rounds : run cb None s rounds = [].
Proof. now destruct rounds. Qed.

(** C2 on the single-job path: a status request that is rejected ends the
    poll loop. The error is logged, the state stays as it was, no timer is
    set, and whatever the server would answer later is never asked for. *)
Theorem checkStatus_stops_on_rejected_request cb jobId filename attempts server later s :
  server jobId = Rejected ->
  run cb (Some (Single jobId filename attempts)) s (server :: later)
  = [ {| after := s; next := None;
         emitted := [Fetch "GET" (jobUrl jobId); ConsoleError "Job status check error:"] |} ].
Proof.
  intros Hrej. cbn [run tick]. unfold checkStatus. rewrite Hrej.
  cbn [next after]. now rewrite run_no_timer.
Qed.

Lemma checkStatus_stops_on_rejected_request_example :
  requested
    (run true (Some (Single "j1" "a.pdf" 0)) (after (handleUpload (accepting "j") oneFile))
       [unreachable; says "finished"])
  = ["http://localhost:8000/job/j1"].
Proof.
  rewrite (checkStatus_stops_on_rejected_request true "j1" "a.pdf" 0 unreachable
             [says "finished"] _ eq_refl).
  reflexivity.
Defined.

(** ** The poll loop of a batch *)

Lemma count_pos_existsb {A} (p : A -> bool) (arr : list A) :
  (0 <? Js.count p arr)%Z = existsb p arr.
Proof.
  unfold Js.count. induction arr as [|x rest IH]; cbn [filter existsb]; [reflexivity|].
  destruct (p x); cbn [orb length]; [|exact IH].
  apply Z.ltb_lt. lia.
Qed.

Lemma existsb_of_map {A B} (f : A -> B) (p : B -> bool) (arr : list A) :
  existsb p (map f arr) = existsb (fun x => p (f x)) arr.
Proof. induction arr as [|x rest IH]; simpl; [reflexivity|]. now rewrite IH. Qed.

Lemma still_processing jobIds server :
  let objs := objectsOf jobIds server in
  (0 <? Z.of_nat (length jobIds) - Js.count isFinished objs - Js.count isFailed objs)%Z
  = somePending jobIds server.
Proof.
  intros objs.
  pose proof (count_split isFinished isFailed objs finished_not_failed) as Hsum.
  unfold objs at 4 in Hsum. unfold objectsOf in Hsum. rewrite length_map in Hsum.
  replace (Z.of_nat (length jobIds) - Js.count isFinished objs - Js.count isFailed objs)%Z
    with (Js.count (fun d => negb (isFinished d) && negb (isFailed d)) objs) by lia.
  rewrite count_pos_existsb. unfold objs, objectsOf, somePending.
  rewrite existsb_of_map. clear.
  induction jobIds as [|jobId rest IH]; cbn [existsb]; [reflexivity|].
  rewrite IH. unfold isTerminal. now rewrite negb_orb.
Qed.

(** A round with a job still processing: the timer is set again after 3 s,
    whatever the number of attempts so far. *)
Lemma checkJobs_pending cb jobIds fileDetails attempts server s :
  wellFormed jobIds fileDetails server = true ->
  somePending jobIds server = true ->
  let objs := objectsOf jobIds server in
  let total := Z.of_nat (length jobIds) in
  checkJobs cb jobIds fileDetails attempts server s
  = {| after :=
         setUploadStatus
           (processingText (Js.count isFinished objs) total
              (percentOf (Js.count isFinished objs) total)
              ((attempts + 1) * 3 / 60) (Js.count isFailed objs))
           (shownAfter jobIds fileDetails server s);
       next := Some (Multi jobIds fileDetails (attempts + 1));
       emitted :=
         (map (fun jobId => Fetch "GET" (jobUrl jobId)) jobIds
          ++ [SetTimeout CheckJobs 3000])%list |}.
Proof.
  intros Hwf Hpending objs total.
  rewrite (checkJobs_wellFormed cb jobIds fileDetails attempts server s Hwf).
  cbv zeta. fold (objectsOf jobIds server). fold objs.
  pose proof (still_processing jobIds server) as Hcount. cbv zeta in Hcount. fold objs in Hcount.
  now rewrite Hcount, Hpending.
Qed.

(** A round in which every job is finished or failed is the last one. *)
Lemma checkJobs_done cb jobIds fileDetails attempts server s :
  wellFormed jobIds fileDetails server = true ->
  somePending jobIds server = false ->
  let objs := objectsOf jobIds server in
  checkJobs cb jobIds fileDetails attempts server s
  = {| after :=
         setUploadStatus
           (completeText (Z.of_nat (length jobIds)) (Js.count isFinished objs)
              (Js.count isFailed objs))
           (shownAfter jobIds fileDetails server s);
       next := None;
       emitted :=
         (map (fun jobId => Fetch "GET" (jobUrl jobId)) jobIds ++ notifySuccess cb)%list |}.
Proof.
  intros Hwf Hpending objs.
  rewrite (checkJobs_wellFormed cb jobIds fileDetails attempts server s Hwf).
  cbv zeta. fold (objectsOf jobIds server). fold objs.
  pose proof (still_processing jobIds server) as Hcount. cbv zeta in Hcount. fold objs in Hcount.
  now rewrite Hcount, Hpending.
Qed.

Lemma processingText_not_takingLonger completed total percent elapsed failed :
  processingText completed total percent elapsed failed <> takingLonger.
Proof. unfold processingText, takingLonger. cbn [append]. discriminate. Qed.

Lemma requested_cons st steps :
  requested (st :: steps)
  = (flat_map (fun e => match e with Fetch _ url => [url] | _ => [] end) (emitted st)
     ++ requested steps)%list.
Proof. reflexivity. Qed.

Lemma fetched_urls jobIds (others : list Effect) :
  flat_map (fun e => match e with Fetch _ url => [url] | _ => [] end)
    (map (fun jobId => Fetch "GET" (jobUrl jobId)) jobIds ++ others)%list
  = (map jobUrl jobIds
     ++ flat_map (fun e => match e with Fetch _ url => [url] | _ => [] end) others)%list.
Proof.
  induction jobIds as [|jobId rest IH]; simpl; [reflexivity|]. now rewrite IH.
Qed.

(** C1 on the batch path. [checkJobs] declares [maxAttempts] and never reads
    it: as long as every round leaves a job that is neither finished nor
    failed, every round asks for every job again and sets the next timer, and
    no round shows the taking-longer status, however many rounds there are. *)
Theorem checkJobs_polls_without_bound cb jobIds fileDetails rounds :
  forall attempts s,
    forallb
      (fun server => wellFormed jobIds fileDetails server && somePending jobIds server)
      rounds = true ->
    let steps := run cb (Some (Multi jobIds fileDetails attempts)) s rounds in
    length steps = length rounds
    /\ requested steps = concat (map (fun _ => map jobUrl jobIds) rounds)
    /\ Forall (fun st => next st <> None /\ uploadStatus (after st) <> takingLonger) steps.
Proof.
  induction rounds as [|server rest IH]; intros attempts s Hall steps.
  - repeat split. constructor.
  - cbn [forallb] in Hall. apply andb_prop in Hall as [Hthis Hrest].
    apply andb_prop in Hthis as [Hwf Hpending].
    pose proof (checkJobs_pending cb jobIds fileDetails attempts server s Hwf Hpending) as Hstep.
    cbv zeta in Hstep.
    unfold steps. cbn [run tick]. rewrite Hstep. cbn [next after].
    match goal with
    | |- context [run cb (Some (Multi jobIds fileDetails (attempts + 1))) ?s1 rest] =>
        destruct (IH (attempts + 1)%Z s1 Hrest) as (Hlen & Hreq & Hnext)
    end.
    repeat split.
    + cbn [length]. now rewrite Hlen.
    + rewrite requested_cons. cbn [emitted]. rewrite fetched_urls, Hreq.
      cbn [flat_map map concat]. now rewrite app_nil_r.
    + constructor; [|exact Hnext].
      cbn [next after uploadStatus setUploadStatus].
      split; [discriminate|apply processingText_not_takingLonger].
Qed.

(** C1 at 61 rounds of a batch of two jobs that the server keeps reporting
    as [queued]: 122 status requests, a timer still pending, and no
    taking-longer status. *)
Lemma checkJobs_polls_without_bound_example :
  let steps :=
    run true (Some (Multi ["j1"; "j2"] [queuedAs "a.pdf" "j1"; queuedAs "b.pdf" "j2"] 0))
      twoFiles (repeat (says "queued") 61) in
  length steps = 61%nat
  /\ length (requested steps) = 122%nat
  /\ Forall (fun st => next st <> None /\ uploadStatus (after st) <> takingLonger) steps.
Proof.
  destruct (checkJobs_polls_without_bound true ["j1"; "j2"]
              [queuedAs "a.pdf" "j1"; queuedAs "b.pdf" "j2"]
              (repeat (says "queued") 61) 0 twoFiles eq_refl) as (Hlen & Hreq & Hall).
  cbv zeta. split; [exact Hlen|]. split; [|exact Hall].
  rewrite Hreq. reflexivity.
Defined.

(** The single-job path does read [maxAttempts]: with the job pending in
    every round, the 61st status check is the last one and shows the
    taking-longer status, once. *)
Lemma checkStatus_gives_up cb jobId filename pending extra later s :
  forallb (pendingFor jobId) pending = true ->
  length pending = 60%nat ->
  pendingFor jobId extra = true ->
  let steps := run cb (Some (Single jobId filename 0)) s (pending ++ extra :: later)%list in
  length steps = 61%nat
  /\ requested steps = repeat (jobUrl jobId) 61
  /\ length (filter (fun st => String.eqb (uploadStatus (after st)) takingLonger) steps) = 1%nat
  /\ snd (final (Some (Single jobId filename 0)) s steps) = None.
Proof.
  intros Hpending Hlen Hextra steps.
  destruct (run_single_pending cb jobId filename pending 0 s (extra :: later) Hpending)
    as (first & s' & Hrun & Hfirst & _ & Hall).
  { rewrite Hlen. unfold maxAttempts. lia. }
  assert (Hlast : run cb (Some (Single jobId filename (0 + Z.of_nat (length pending)))) s'
                    (extra :: later)
                  = [ {| after := setUploadStatus takingLonger s'; next := None;
                         emitted := [Fetch "GET" (jobUrl jobId)] |} ]).
  { rewrite Hlen. cbn [run tick]. unfold checkStatus, pendingFor in *.
    destruct (extra jobId) as [| |d]; try discriminate.
    apply negb_true_iff, isTerminal_false in Hextra as [Hfin Hfail].
    unfold isFinished in Hfin. unfold isFailed in Hfail. rewrite Hfin, Hfail.
    replace (0 + Z.of_nat 60 <? maxAttempts)%Z with false by reflexivity.
    cbn [next after]. now rewrite run_no_timer. }
  unfold steps. rewrite Hrun, Hlast. clear Hrun Hlast steps.
  rewrite Hlen in Hfirst.
  assert (Hreq : requested first = repeat (jobUrl jobId) (length first)).
  { clear Hfirst. induction Hall as [|st rest (_ & _ & _ & Hem) _ IH]; [reflexivity|].
    rewrite requested_cons, Hem, IH. reflexivity. }
  assert (Hnone : filter (fun st => String.eqb (uploadStatus (after st)) takingLonger) first = []).
  { clear Hfirst Hreq. induction Hall as [|st rest (_ & _ & Hne & _) _ IH]; [reflexivity|].
    cbn [filter]. apply String.eqb_neq in Hne. now rewrite Hne. }
  repeat split.
  - rewrite length_app, Hfirst. reflexivity.
  - unfold requested in *. rewrite flat_map_app, Hreq, Hfirst. reflexivity.
  - rewrite filter_app, Hnone. reflexivity.
  - unfold final. rewrite rev_app_distr. reflexivity.
Qed.

(** ** Terminal jobs inside a batch *)

Lemma displayed_zipDetails fileDetails :
  forall objs i d,
    (i < length fileDetails)%nat ->
    nth_error objs i = Some d ->
    nth_error (map Detail.status (zipDetails fileDetails objs)) i = Some (displayOf d).
Proof.
  unfold zipDetails.
  induction fileDetails as [|detail rest IH]; intros objs i d Hi Hd; simpl in Hi; [lia|].
  destruct objs as [|o objs]; [now destruct i|].
  destruct i as [|i]; simpl in *.
  - now inversion Hd.
  - apply IH; [lia|exact Hd].
Qed.

(** The state shown for the job at index [i] after a round is the image of
    that round's answer for it. *)
Lemma displayed_after_round jobIds fileDetails server s i jobId :
  length fileDetails = length jobIds ->
  nth_error jobIds i = Some jobId ->
  nth_error (displayed (shownAfter jobIds fileDetails server s)) i
  = Some (displayOf (answerOf (server jobId))).
Proof.
  intros Hlen Hi. unfold displayed, shownAfter.
  cbn [processingDetails setProgress setProcessingDetails].
  apply displayed_zipDetails.
  - rewrite Hlen. apply nth_error_Some. now rewrite Hi.
  - unfold objectsOf. now rewrite nth_error_map, Hi.
Qed.

(** The batch path on a rejected status request: the job is shown as
    [processing], counts as still processing, and the next round is set up
    for every job of the batch. *)
Lemma checkJobs_retries_rejected_request cb jobIds fileDetails attempts server s i jobId :
  length fileDetails = length jobIds ->
  wellFormed jobIds fileDetails server = true ->
  nth_error jobIds i = Some jobId ->
  server jobId = Rejected ->
  let st := checkJobs cb jobIds fileDetails attempts server s in
  next st = Some (Multi jobIds fileDetails (attempts + 1))
  /\ nth_error (displayed (after st)) i = Some "processing".
Proof.
  intros Hlen Hwf Hi Hrej st.
  assert (Hp : somePending jobIds server = true).
  { unfold somePending. apply existsb_exists. exists jobId. split.
    - eapply nth_error_In; exact Hi.
    - now rewrite Hrej. }
  unfold st. rewrite (checkJobs_pending cb jobIds fileDetails attempts server s Hwf Hp).
  cbv zeta. cbn [next after]. split; [reflexivity|].
  change (nth_error (displayed (shownAfter jobIds fileDetails server s)) i = Some "processing").
  rewrite (displayed_after_round jobIds fileDetails server s i jobId Hlen Hi).
  now rewrite Hrej.
Qed.

(** C3 as the specification words it fails on the same batch when the request
    for the finished job is rejected in round 2: the job, shown as [complete]
    after round 1, is asked for again and is shown as [processing] after
    round 2. *)
Lemma terminal_job_is_polled_again :
  let steps :=
    run true (Some (Multi ["j1"; "j2"] [queuedAs "a.pdf" "j1"; queuedAs "b.pdf" "j2"] 0))
      twoFiles
      [except "j1" (says "finished") (says "queued");
       except "j1" unreachable (says "queued")] in
  map (fun st => displayed (after st)) steps
  = [["complete"; "processing"]; ["processing"; "processing"]]
  /\ requested steps
     = ["http://localhost:8000/job/j1"; "http://localhost:8000/job/j2";
        "http://localhost:8000/job/j1"; "http://localhost:8000/job/j2"].
Proof. split; reflexivity. Qed.

(** ** A new batch while an earlier poll loop is pending *)

Lemma filenames_zipDetails fileDetails :
  forall objs,
    (length fileDetails <= length objs)%nat ->
    map Detail.filename (zipDetails fileDetails objs) = map Srv.filename fileDetails.
Proof.
  unfold zipDetails.
  induction fileDetails as [|detail rest IH]; intros objs Hlen; [reflexivity|].
  destruct objs as [|o objs]; simpl in Hlen; [lia|].
  simpl. rewrite IH by lia. reflexivity.
Qed.

(** C4 as the specification words it fails: with the second batch on display
    and both loops pending, a round of the first batch's loop replaces the
    file list, the progress counts and the status line by those of the first
    batch, while the second batch's loop is still pending. *)
Lemma stale_round_reaches_the_new_batch :
  let w := secondBatchSubmitted in
  let w' := react true w (Timer 0 (says "finished")) in
  map Detail.filename (processingDetails (view w)) = ["c.pdf"; "d.pdf"]
  /\ displayed (view w) = ["processing"; "processing"]
  /\ length (timers w) = 2%nat
  /\ map Detail.filename (processingDetails (view w')) = ["a.pdf"; "b.pdf"]
  /\ displayed (view w') = ["complete"; "complete"]
  /\ option_map Progress.completed (progress (view w')) = Some (Some 2%Z)
  /\ uploadStatus (view w') = "🎉 All 2 documents processed successfully!"
  /\ timers w'
     = [Multi ["b1"; "b2"] [queuedAs "c.pdf" "b1"; queuedAs "d.pdf" "b2"] 0].
Proof. repeat split. Qed.

(** ** The single-job path against a batch of one *)

Lemma wellFormed_one jobId detail server d :
  server jobId = JsonObj d -> wellFormed [jobId] [detail] server = true.
Proof. intros Hd. unfold wellFormed. cbn. now rewrite Hd. Qed.

Lemma displayOf_pending d : isTerminal d = false -> displayOf d = "processing".
Proof.
  intros H. apply isTerminal_false in H as [Hfin Hfail].
  unfold displayOf. now rewrite Hfin, Hfail.
Qed.

Lemma single_matches_batch_from cb jobId filename detail rounds :
  forall a1 a2 s1 s2,
    forallb (answersFor jobId) rounds = true ->
    (a1 + Z.of_nat (length rounds) <= maxAttempts)%Z ->
    displayed s1 = ["processing"] ->
    map observe (run cb (Some (Single jobId filename a1)) s1 rounds)
    = map observe (run cb (Some (Multi [jobId] [detail] a2)) s2 rounds).
Proof.
  induction rounds as [|server rest IH]; intros a1 a2 s1 s2 Hall Hle Hshown; [reflexivity|].
  cbn [forallb] in Hall. apply andb_prop in Hall as [Hthis Hrest].
  unfold answersFor in Hthis. destruct (server jobId) as [| |d] eqn:Hd; try discriminate.
  cbn [length] in Hle. rewrite Nat2Z.inj_succ in Hle.
  pose proof (wellFormed_one jobId detail server d Hd) as Hwf.
  assert (Hp : somePending [jobId] server = negb (isTerminal d)).
  { unfold somePending. cbn [existsb]. rewrite Hd. cbn [answerOf]. apply orb_false_r. }
  cbn [run tick map].
  destruct (isTerminal d) eqn:Hterm.
  - destruct (checkStatus_terminal cb jobId filename a1 server s1 d Hd Hterm) as [Hsh Hnx].
    rewrite (checkJobs_done cb [jobId] [detail] a2 server s2 Hwf Hp).
    cbv zeta. cbn [next after]. rewrite Hnx, !run_no_timer.
    unfold observe at 1 2. rewrite Hsh, Hnx. cbn [next after map].
    unfold displayed, shownAfter, objectsOf.
    cbn [processingDetails setUploadStatus setProgress setProcessingDetails map].
    rewrite Hd. reflexivity.
  - assert (Hlt : (a1 < maxAttempts)%Z) by lia.
    assert (Hpend : pendingFor jobId server = true)
      by (unfold pendingFor; now rewrite Hd, Hterm).
    rewrite (checkStatus_pending cb jobId filename a1 server s1 Hpend Hlt).
    rewrite (checkJobs_pending cb [jobId] [detail] a2 server s2 Hwf Hp).
    cbv zeta. cbn [next after]. f_equal.
    + unfold observe. cbn [next after]. f_equal.
      unfold displayed in *.
      cbn [processingDetails setUploadStatus]. rewrite Hshown.
      unfold shownAfter, objectsOf, zipDetails.
      cbn [processingDetails setProgress setProcessingDetails map combine fst snd].
      rewrite Hd. cbn [answerOf updatedDetail Detail.status].
      fold (isFinished d) (isFailed d). fold (displayOf d).
      now rewrite (displayOf_pending d Hterm).
    + apply IH; [exact Hrest|lia|exact Hshown].
Qed.

(** C5, as the code has it. As long as every status request is answered with
    an object and there are at most 60 rounds, the single-job loop and the
    batch loop on that one job show the same state for the file after every
    round and end after the same round. *)
Theorem single_job_matches_batch_of_one cb jobId filename detail rounds s1 s2 :
  forallb (answersFor jobId) rounds = true ->
  (length rounds <= 60)%nat ->
  displayed s1 = ["processing"] ->
  map observe (run cb (Some (Single jobId filename 0)) s1 rounds)
  = map observe (run cb (Some (Multi [jobId] [detail] 0)) s2 rounds).
Proof.
  intros Hall Hlen Hshown.
  apply single_matches_batch_from; [exact Hall|unfold maxAttempts; lia|exact Hshown].
Qed.

(** C5 on a job that is [queued] twice and then [finished]. *)
Lemma single_job_matches_batch_of_one_example :
  map observe
    (run true (Some (Multi ["j1"] [queuedAs "a.pdf" "j1"] 0)) oneFileSubmitted
       [says "queued"; says "queued"; says "finished"])
  = [(["processing"], true); (["processing"], true); (["complete"], false)].
Proof.
  rewrite <- (single_job_matches_batch_of_one true "j1" "a.pdf" (queuedAs "a.pdf" "j1")
                [says "queued"; says "queued"; says "finished"]
                oneFileSubmitted oneFileSubmitted eq_refl ltac:(simpl; lia) eq_refl).
  reflexivity.
Defined.

(** C5 as the specification words it fails. After a rejected status request
    the single-job loop ends while the batch loop asks again and reaches
    [complete]; the single-job loop waits 2 s between rounds, the batch loop
    3 s; the single-job loop ends at its 61st round, the batch loop does not;
    and the two show different status lines for the same outcome. *)
Lemma single_job_differs_from_batch_of_one :
  let single := run true (Some (Single "j1" "a.pdf" 0)) oneFileSubmitted in
  let batch := run true (Some (Multi ["j1"] [queuedAs "a.pdf" "j1"] 0)) oneFileSubmitted in
  map observe (single [unreachable; says "finished"]) = [(["processing"], false)]
  /\ map observe (batch [unreachable; says "finished"])
     = [(["processing"], true); (["complete"], false)]
  /\ map emitted (single [says "queued"])
     = [[Fetch "GET" "http://localhost:8000/job/j1"; SetTimeout CheckStatus 2000]]
  /\ map emitted (batch [says "queued"])
     = [[Fetch "GET" "http://localhost:8000/job/j1"; SetTimeout CheckJobs 3000]]
  /\ length (single (repeat (says "queued") 70)) = 61%nat
  /\ length (batch (repeat (says "queued") 70)) = 70%nat
  /\ map (fun st => uploadStatus (after st)) (single [says "failed"])
     = ["❌ Processing failed: Unknown error"]
  /\ map (fun st => uploadStatus (after st)) (batch [says "failed"])
     = ["✅ Processing complete: 0 successful, 1 failed"].
Proof. repeat split; vm_compute; reflexivity. Qed.

(** ** Responses that are not ok *)

(** [handleUpload] does check [response.ok]: the status line carries the
    [detail] of the error body when there is a non-empty one, and the HTTP
    status code otherwise. *)
Lemma handleUpload_not_ok uploads http errorData s :
  (1 <= length (files s) <= 20)%nat ->
  (forall file, upload uploads file = NotOk http errorData) ->
  (forall fs, uploadMultiple uploads fs = NotOk http errorData) ->
  uploadStatus (after (handleUpload uploads s))
  = "❌ Upload failed: "
    ++ match detail errorData with
       | Some (String _ _ as message) => message
       | _ => "HTTP " ++ Js.show http
       end
  /\ next (handleUpload uploads s) = None.
Proof.
  intros [Hlo Hhi] Hone Hmany. unfold handleUpload.
  destruct (files s) as [|f1 [|f2 fs]] eqn:Hfiles; simpl in Hlo; try lia.
  - cbn. rewrite Hone. now split.
  - replace (20 <? length (f1 :: f2 :: fs))%nat with false
      by (symmetry; apply Nat.ltb_ge; exact Hhi).
    cbn [length Nat.eqb]. rewrite Hmany. now split.
Qed.

(** C7 on the query path. [handleQuery] never reads [response.ok] nor
    [response.status]: the parsed body of a response that is not ok is handed
    to [onQueryResult] like an answer, and [AnswerDisplay], finding no
    [answer] in an error body, shows its placeholder text; neither the
    server's [detail] nor the status code is shown. *)
Theorem handleQuery_shows_no_error question server http data :
  blank question = false ->
  server question = QueryJson false http data ->
  answer data = None ->
  snd (handleQuery question server) = Some data
  /\ exists r,
       AnswerDisplay (snd (handleQuery question server)) = Some r
       /\ answerText r = "No answer available".
Proof.
  intros Hq Hreply Hnone. unfold handleQuery. rewrite Hq, Hreply. cbn [snd].
  split; [reflexivity|]. unfold AnswerDisplay. rewrite Hnone.
  eexists. split; reflexivity.
Qed.

(** C7 at a response with status 500 and body [{detail: 'graph store is down'}]. *)
Lemma handleQuery_shows_no_error_example :
  let server := fun _ => QueryJson false 500 (errorBody "graph store is down") in
  snd (handleQuery "Where is AHU-3 located?" server) = Some (errorBody "graph store is down")
  /\ exists r,
       AnswerDisplay (snd (handleQuery "Where is AHU-3 located?" server)) = Some r
       /\ answerText r = "No answer available"
       /\ Js.includes "graph store is down" (answerText r) = false
       /\ Js.includes "500" (answerText r) = false.
Proof.
  intros server.
  destruct (handleQuery_shows_no_error "Where is AHU-3 located?" server 500
              (errorBody "graph store is down") eq_refl eq_refl eq_refl)
    as (Hdata & r & Hr & Htext).
  split; [exact Hdata|]. exists r. split; [exact Hr|]. split; [exact Htext|].
  rewrite Htext. split; reflexivity.
Defined.

(** ** The theorems at concrete inputs *)

Lemma handleUpload_file_limit_example :
  handleUpload (accepting "j") manyFiles
  = {| after := setUploadStatus "Maximum 20 files allowed per upload" manyFiles;
       next := None; emitted := [] |}
  /\ exists rest,
       emitted (handleUpload (accepting "j") twoFiles)
       = Fetch "POST" "http://localhost:8000/upload-multiple" :: rest.
Proof.
  split.
  - apply (proj1 (handleUpload_file_limit (accepting "j") manyFiles)). simpl. lia.
  - apply (proj2 (handleUpload_file_limit (accepting "j") twoFiles)). simpl. lia.
Defined.

Lemma AnswerDisplay_first_five_sources_example :
  let source := fun file =>
    {| Source.is_diagram := false; Source.filename := Some file;
       Source.page := Some 1%Z; Source.score := None |} in
  let a :=
    {| answer := Some "See sheet A-201."; query_type := Some "reference";
       execution_time_ms := None;
       sources := Some (map source ["a"; "b"; "c"; "d"; "e"; "f"; "g"]);
       body_detail := None |} in
  exists r,
    AnswerDisplay (Some a) = Some r
    /\ map shownName (sourceEntries r) = ["a"; "b"; "c"; "d"; "e"].
Proof.
  intros source a.
  destruct (AnswerDisplay_first_five_sources a
              (map source ["a"; "b"; "c"; "d"; "e"; "f"; "g"]) eq_refl)
    as (r & Hr & _ & _).
  exists r. split; [exact Hr|].
  injection Hr as Hr. subst r. reflexivity.
Defined.

(** * Further properties of the components *)

(** ** [handleUpload]: what is left behind *)

Lemma handleUpload_cases server s :
  (1 <= length (files s) <= 20)%nat ->
  (exists file, files s = [file]
     /\ uploadError server s = thrownBy (upload server file))
  \/ (exists f1 f2 more, files s = f1 :: f2 :: more
        /\ (20 <? length (files s))%nat = false
        /\ uploadError server s = thrownBy (uploadMultiple server (files s))).
Proof.
  intros [Hlo Hhi]. unfold uploadError.
  destruct (files s) as [|f1 [|f2 more]] eqn:Hfiles; simpl in Hlo; [lia| |].
  - left. now exists f1.
  - right. exists f1, f2, more. repeat split. now apply Nat.ltb_ge.
Qed.

(** X1. Whatever the server does with the upload request, [handleUpload]
    ends with [uploading] false (the [finally] block), and it starts a poll
    loop only when the request succeeded. The selection is cleared exactly
    when the request succeeded: after a failure the files are still selected
    and the status line carries the message of the error. *)
Theorem handleUpload_outcome server s :
  (1 <= length (files s) <= 20)%nat ->
  let st := handleUpload server s in
  uploading (after st) = false
  /\ match uploadError server s with
     | Some message =>
         files (after st) = files s
         /\ next st = None
         /\ processingDetails (after st) = []
         /\ uploadStatus (after st) = "❌ Upload failed: " ++ message
     | None => files (after st) = []
     end.
Proof.
  intros Hlen st. unfold st.
  destruct (handleUpload_cases server s Hlen)
    as [(file & Hfiles & Herr)|(f1 & f2 & more & Hfiles & Hmax & Herr)];
    rewrite Herr; unfold handleUpload.
  - rewrite Hfiles. cbn [length Nat.eqb Nat.ltb Nat.leb].
    destruct (upload server file) as [m|http e|m|data]; cbn [thrownBy];
      now repeat split.
  - rewrite Hmax. rewrite Hfiles. cbn [length Nat.eqb]. rewrite <- Hfiles.
    destruct (uploadMultiple server (files s)) as [m|http e|m|data]; cbn [thrownBy];
      rewrite Hfiles; now repeat split.
Qed.

Lemma handleUpload_outcome_example :
  let server :=
    {| upload := fun _ => NotOk 413 {| detail := Some "File too large" |};
       uploadMultiple := fun _ => FetchRejected "Failed to fetch" |} in
  files (after (handleUpload server oneFile)) = [ {| name := "a.pdf" |} ]
  /\ uploadStatus (after (handleUpload server oneFile)) = "❌ Upload failed: File too large"
  /\ uploading (after (handleUpload server oneFile)) = false.
Proof.
  intros server.
  destruct (handleUpload_outcome server oneFile ltac:(simpl; lia)) as (Hup & Hrest).
  cbn in Hrest. destruct Hrest as (Hfiles & _ & _ & Hstatus).
  split; [exact Hfiles|]. split; [exact Hstatus|exact Hup].
Defined.

(** X2. An upload that the server accepts without a usable job id starts no
    poll loop: a single file whose reply has no [job_id] (or an empty one) is
    shown as [processing] and stays so whatever the server would answer to
    status requests, none of which is sent; a batch whose reply has no
    [job_ids] (or an empty list) is shown as [handleUpload] left it. *)
Theorem upload_without_job_id_is_not_polled cb server s :
  (forall file data rounds,
      files s = [file] ->
      upload server file = Ok data ->
      noJobId (job_id data) = true ->
      session cb server rounds s = [["processing"]]
      /\ emitted (handleUpload server s) = [Fetch "POST" "http://localhost:8000/upload"])
  /\ (forall data,
         (2 <= length (files s) <= 20)%nat ->
         uploadMultiple server (files s) = Ok data ->
         noJobIds (job_ids data) = true ->
         next (handleUpload server s) = None
         /\ emitted (handleUpload server s)
            = [Fetch "POST" "http://localhost:8000/upload-multiple"]).
Proof.
  split.
  - intros file data rounds Hfiles Hok Hno.
    unfold session, handleUpload. rewrite Hfiles. cbn [length Nat.eqb Nat.ltb Nat.leb].
    rewrite Hok.
    destruct (job_id data) as [[|c j]|]; try discriminate;
      cbn [next after emitted]; rewrite run_no_timer; now split.
  - intros data [Hlo Hhi] Hok Hno. unfold handleUpload.
    destruct (files s) as [|f1 [|f2 more]] eqn:Hfiles; simpl in Hlo; try lia.
    replace (20 <? length (f1 :: f2 :: more))%nat with false
      by (symmetry; apply Nat.ltb_ge; exact Hhi).
    cbn [length Nat.eqb]. rewrite Hok.
    destruct (job_ids data) as [[|j js]|]; try discriminate; now split.
Qed.

Lemma upload_without_job_id_is_not_polled_example :
  let server :=
    {| upload := fun _ => Ok {| job_id := None |};
       uploadMultiple := fun _ => FetchRejected "Failed to fetch" |} in
  session true server [says "finished"; says "finished"] oneFile = [["processing"]].
Proof.
  intros server.
  exact (proj1 (proj1 (upload_without_job_id_is_not_polled true server oneFile)
                  {| name := "a.pdf" |} {| job_id := None |}
                  [says "finished"; says "finished"] eq_refl eq_refl eq_refl)).
Defined.

(** ** [removeFile] *)

Lemma filteri_all {A} (p : nat -> bool) (arr : list A) :
  forall i, (forall k, (i <= k)%nat -> p k = true) -> filteri p i arr = arr.
Proof.
  induction arr as [|x rest IH]; intros i Hp; [reflexivity|].
  cbn [filteri]. rewrite (Hp i (Nat.le_refl i)). f_equal.
  apply IH. intros k Hk. apply Hp. lia.
Qed.

Lemma filteri_drop {A} (arr : list A) :
  forall index i,
    filteri (fun k => negb (k =? i + index)%nat) i arr
    = (firstn index arr ++ skipn (S index) arr)%list.
Proof.
  induction arr as [|x rest IH]; intros index i.
  - now destruct index.
  - destruct index as [|index]; cbn [filteri firstn skipn app].
    + rewrite Nat.add_0_r, Nat.eqb_refl. cbn [negb].
      apply filteri_all. intros k Hk. apply negb_true_iff, Nat.eqb_neq. lia.
    + replace (i =? i + S index)%nat with false by (symmetry; apply Nat.eqb_neq; lia).
      cbn [negb]. f_equal.
      change (match rest with [] => [] | _ :: l => skipn index l end)
        with (skipn (S index) rest).
      rewrite <- (IH index (S i)).
      now replace (S i + index)%nat with (i + S index)%nat by lia.
Qed.

(** The source's [filter] by index is the list without the element at
    [index]: the model that the component's events use. *)
Lemma removeFileByFilter_removeFile index s :
  removeFileByFilter index s = removeFile index s.
Proof.
  unfold removeFileByFilter, removeFile.
  now rewrite <- (filteri_drop (files s) index 0).
Qed.

(** X3. [removeFile(index)] takes out the file at [index] and nothing else:
    the files before it keep their places, the files after it move up by one,
    so an index past the end removes nothing; the other cells of the state
    are as they were (the status line and the file status list are not
    reset). *)
Theorem removeFile_removes_one index s :
  let s' := removeFileByFilter index s in
  (forall k,
      nth_error (files s') k
      = if (k <? index)%nat then nth_error (files s) k else nth_error (files s) (S k))
  /\ length (files s')
     = (if (index <? length (files s))%nat then pred (length (files s))
        else length (files s))
  /\ uploadStatus s' = uploadStatus s
  /\ progress s' = progress s
  /\ processingDetails s' = processingDetails s
  /\ uploading s' = uploading s.
Proof.
  intros s'. unfold s'. rewrite removeFileByFilter_removeFile. unfold removeFile.
  cbn [files uploadStatus progress processingDetails uploading setFiles].
  split; [|split; [|now repeat split]].
  - intros k. destruct (k <? index)%nat eqn:Hk.
    + apply Nat.ltb_lt in Hk.
      destruct (Nat.le_gt_cases (length (files s)) k) as [Hout|Hin].
      * rewrite (proj2 (nth_error_None (files s) k) Hout).
        apply nth_error_None. rewrite length_app, length_firstn, length_skipn. lia.
      * rewrite nth_error_app1 by (rewrite length_firstn; lia).
        rewrite nth_error_firstn. apply Nat.ltb_lt in Hk. now rewrite Hk.
    + apply Nat.ltb_ge in Hk.
      destruct (Nat.le_gt_cases (length (files s)) index) as [Hout|Hin].
      * rewrite firstn_all2, skipn_all2 by lia. rewrite app_nil_r.
        rewrite (proj2 (nth_error_None (files s) (S k))) by lia.
        apply nth_error_None. lia.
      * rewrite nth_error_app2 by (rewrite length_firstn; lia).
        rewrite length_firstn, nth_error_skipn.
        f_equal. lia.
  - rewrite length_app, length_firstn, length_skipn.
    destruct (index <? length (files s))%nat eqn:Hi.
    + apply Nat.ltb_lt in Hi. lia.
    + apply Nat.ltb_ge in Hi. lia.
Qed.

(** ** The states a file can be shown in *)

Lemma updatedDetail_known detail jobStatus :
  knownStatus (Detail.status (updatedDetail detail jobStatus)) = true.
Proof.
  unfold updatedDetail. cbn [Detail.status].
  destruct (Js.eqs (Job.status jobStatus) "finished"); [reflexivity|].
  destruct (Js.eqs (Job.status jobStatus) "failed"); reflexivity.
Qed.

Lemma updatedDetails_known fileDetails statuses :
  forall index ds,
    updatedDetails fileDetails index statuses = Some ds ->
    Forall (fun d => knownStatus (Detail.status d) = true) ds.
Proof.
  induction fileDetails as [|detail rest IH]; intros index ds H; simpl in H.
  - inversion H. constructor.
  - destruct (nth_error statuses index) as [[jobStatus|]|]; try discriminate.
    destruct (updatedDetails rest (S index) statuses) as [ds'|] eqn:Hrest; [|discriminate].
    inversion H; subst. constructor; [apply updatedDetail_known|].
    now apply (IH (S index)).
Qed.

Lemma tick_known cb l server s :
  Forall (fun d => knownStatus (Detail.status d) = true) (processingDetails s) ->
  Forall (fun d => knownStatus (Detail.status d) = true)
    (processingDetails (after (tick cb l server s))).
Proof.
  intros Hs. destruct l as [jobId filename attempts|jobIds fileDetails attempts]; cbn [tick].
  - unfold checkStatus. destruct (server jobId) as [| |data]; try exact Hs.
    destruct (Js.eqs (Job.status data) "finished"); [now repeat constructor|].
    destruct (Js.eqs (Job.status data) "failed"); [now repeat constructor|].
    destruct (attempts <? maxAttempts)%Z; exact Hs.
  - unfold checkJobs.
    destruct (updatedDetails fileDetails 0 (statusesOf jobIds server)) as [updated|] eqn:Hup;
      [|exact Hs].
    pose proof (updatedDetails_known _ _ _ _ Hup) as Hknown.
    destruct (objects (statusesOf jobIds server)) as [objs|]; [|exact Hknown].
    destruct (0 <? _)%Z; exact Hknown.
Qed.

Lemma handleUpload_known server s :
  Forall (fun d => knownStatus (Detail.status d) = true) (processingDetails s) ->
  Forall (fun d => knownStatus (Detail.status d) = true)
    (processingDetails (after (handleUpload server s))).
Proof.
  intros Hs. unfold handleUpload.
  destruct (length (files s) =? 0)%nat; [exact Hs|].
  destruct (20 <? length (files s))%nat; [exact Hs|].
  destruct (files s) as [|f1 [|f2 more]].
  - destruct (uploadMultiple server []) as [m|http e|m|data]; try (now constructor).
    destruct (job_ids data) as [[|j js]|]; cbn;
      (apply Forall_map, Forall_forall; intros d _; unfold initialDetail; cbn;
       now destruct (String.eqb (Srv.status d) "queued")).
  - destruct (upload server f1) as [m|http e|m|data]; try (now constructor).
    destruct (job_id data) as [[|c j]|]; now repeat constructor.
  - destruct (uploadMultiple server (f1 :: f2 :: more)) as [m|http e|m|data];
      try (now constructor).
    destruct (job_ids data) as [[|j js]|]; cbn;
      (apply Forall_map, Forall_forall; intros d _; unfold initialDetail; cbn;
       now destruct (String.eqb (Srv.status d) "queued")).
Qed.

(** X4. Whatever the user and the servers do, every entry of the file status
    list is in one of the states [processing], [complete] and [failed]: the
    badge of a file is never the fourth one, Queued. *)
Theorem queued_badge_is_never_shown cb (es : list Event) :
  Forall
    (fun d =>
       knownStatus (Detail.status d) = true
       /\ statusLabel (Detail.status d) <> "Queued")
    (processingDetails (view (reacts cb emptyWorld es))).
Proof.
  assert (Hinv : forall es w,
             Forall (fun d => knownStatus (Detail.status d) = true)
               (processingDetails (view w)) ->
             Forall (fun d => knownStatus (Detail.status d) = true)
               (processingDetails (view (reacts cb w es)))).
  { clear es. induction es as [|e es IH]; intros w Hw; [exact Hw|].
    unfold reacts in *. cbn [fold_left]. apply IH.
    destruct e as [selected|index|server|i server]; cbn [react].
    - constructor.
    - exact Hw.
    - cbn [settle view]. now apply handleUpload_known.
    - destruct (nth_error (timers w) i) as [l|]; [|exact Hw].
      cbn [settle view]. now apply tick_known. }
  eapply Forall_impl; [|apply (Hinv es emptyWorld); constructor].
  intros d Hd. split; [exact Hd|].
  unfold knownStatus in Hd. unfold statusLabel.
  destruct (String.eqb (Detail.status d) "complete"); [discriminate|].
  destruct (String.eqb (Detail.status d) "failed"); [discriminate|].
  destruct (String.eqb (Detail.status d) "processing"); [discriminate|discriminate].
Qed.

(** ** Rounds of [checkJobs] that throw *)

Lemma updatedDetails_short fileDetails statuses :
  forall index,
    (index <= length statuses)%nat ->
    (length statuses < index + length fileDetails)%nat ->
    updatedDetails fileDetails index statuses = None.
Proof.
  induction fileDetails as [|detail rest IH]; intros index Hle Hlen; simpl in *; [lia|].
  destruct (nth_error statuses index) as [[jobStatus|]|] eqn:Hnth; try reflexivity.
  assert (index < length statuses)%nat by (apply nth_error_Some; now rewrite Hnth).
  rewrite (IH (S index)) by lia. reflexivity.
Qed.

(** X5. When the upload reply lists more [details] than [job_ids] (a file of
    the batch was not queued), the first round of [checkJobs] reads
    [statuses[index]] past the end: it asks for every job, throws, logs, and
    sets no timer. The display stays as [handleUpload] left it and no later
    answer of the server is asked for. *)
Theorem checkJobs_with_more_details_than_jobs cb jobIds fileDetails attempts server later s :
  (length jobIds < length fileDetails)%nat ->
  run cb (Some (Multi jobIds fileDetails attempts)) s (server :: later)
  = [ {| after := s; next := None;
         emitted :=
           (map (fun jobId => Fetch "GET" (jobUrl jobId)) jobIds
            ++ [ConsoleError "Job polling error:"])%list |} ].
Proof.
  intros Hlen. cbn [run tick]. unfold checkJobs.
  rewrite (updatedDetails_short fileDetails (statusesOf jobIds server) 0)
    by (unfold statusesOf; rewrite ?length_map; simpl; lia).
  cbn [next after]. now rewrite run_no_timer.
Qed.

Lemma checkJobs_with_more_details_than_jobs_example :
  map (fun st => displayed (after st))
    (run true (Some (Multi ["j1"; "j2"] partlyQueued 0))
       (setProcessingDetails (map initialDetail partlyQueued) initialState)
       [says "finished"; says "finished"])
  = [["processing"; "failed"; "processing"]].
Proof.
  rewrite (checkJobs_with_more_details_than_jobs true ["j1"; "j2"] partlyQueued 0
             (says "finished") [says "finished"] _ ltac:(simpl; lia)).
  reflexivity.
Defined.

Lemma objects_null statuses :
  In None statuses -> objects statuses = None.
Proof.
  induction statuses as [|[d|] rest IH]; intros Hin; simpl in *.
  - contradiction.
  - destruct Hin as [Hin|Hin]; [discriminate|]. now rewrite IH.
  - reflexivity.
Qed.

(** X6. A status response whose body is the JSON value [null], for any one
    job of a batch, ends the poll loop of the whole batch: the round logs an
    error and sets no timer, and neither the status line nor the progress
    counts change. *)
Theorem checkJobs_null_body_ends_polling cb jobIds fileDetails attempts server s jobId :
  In jobId jobIds ->
  server jobId = JsonNull ->
  let st := checkJobs cb jobIds fileDetails attempts server s in
  next st = None
  /\ logged st = true
  /\ uploadStatus (after st) = uploadStatus s
  /\ progress (after st) = progress s.
Proof.
  intros Hin Hnull st.
  assert (Hobjs : objects (statusesOf jobIds server) = None).
  { apply objects_null. unfold statusesOf. apply in_map_iff.
    exists jobId. split; [now rewrite Hnull|exact Hin]. }
  assert (Hlog : forall requests : list string,
             existsb (fun e => match e with ConsoleError _ => true | _ => false end)
               (map (fun j => Fetch "GET" (jobUrl j)) requests
                ++ [ConsoleError "Job polling error:"])%list = true).
  { intros requests. rewrite existsb_app. apply orb_true_iff. now right. }
  unfold st, checkJobs, logged.
  destruct (updatedDetails fileDetails 0 (statusesOf jobIds server)) as [updated|].
  - rewrite Hobjs. cbn [next after emitted]. now rewrite Hlog.
  - cbn [next after emitted]. now rewrite Hlog.
Qed.

Lemma checkJobs_null_body_ends_polling_example :
  next (checkJobs true ["j1"; "j2"] [queuedAs "a.pdf" "j1"; queuedAs "b.pdf" "j2"] 0
          (except "j2" (fun _ => JsonNull) (says "queued")) twoFiles) = None.
Proof.
  exact (proj1 (checkJobs_null_body_ends_polling true ["j1"; "j2"]
                  [queuedAs "a.pdf" "j1"; queuedAs "b.pdf" "j2"] 0
                  (except "j2" (fun _ => JsonNull) (says "queued")) twoFiles "j2"
                  ltac:(simpl; tauto) eq_refl)).
Defined.

(** ** Requests, timers and callbacks of a poll loop *)

Lemma checkJobs_shape cb jobIds fileDetails attempts server s :
  exists others,
    emitted (checkJobs cb jobIds fileDetails attempts server s)
    = (map (fun jobId => Fetch "GET" (jobUrl jobId)) jobIds ++ others)%list
    /\ (forall e, In e others -> match e with Fetch _ _ => False | _ => True end)
    /\ (next (checkJobs cb jobIds fileDetails attempts server s) = None
        \/ (exists attempts',
              next (checkJobs cb jobIds fileDetails attempts server s)
              = Some (Multi jobIds fileDetails attempts')
              /\ others = [SetTimeout CheckJobs 3000]))
    /\ (others = [ConsoleError "Job polling error:"]
        \/ others = [SetTimeout CheckJobs 3000]
        \/ others = notifySuccess cb).
Proof.
  unfold checkJobs.
  destruct (updatedDetails fileDetails 0 (statusesOf jobIds server)) as [updated|].
  - destruct (objects (statusesOf jobIds server)) as [objs|].
    + destruct (0 <? _)%Z; eexists; (split; [reflexivity|]); cbn [next].
      * split; [intros e [<-|[]]; exact I|]. split; [right; eauto|auto].
      * split; [|split; [now left|auto]].
        unfold notifySuccess. destruct cb; [intros e [<-|[]]; exact I|intros e []].
    + eexists. split; [reflexivity|]. cbn [next].
      split; [intros e [<-|[]]; exact I|]. split; [now left|auto].
  - eexists. split; [reflexivity|]. cbn [next].
    split; [intros e [<-|[]]; exact I|]. split; [now left|auto].
Qed.

Lemma no_fetch_urls (others : list Effect) :
  (forall e, In e others -> match e with Fetch _ _ => False | _ => True end) ->
  flat_map (fun e => match e with Fetch _ url => [url] | _ => [] end) others = [].
Proof.
  induction others as [|e rest IH]; intros H; [reflexivity|].
  cbn [flat_map]. rewrite IH by (intros e' He'; apply H; now right).
  pose proof (H e (or_introl eq_refl)) as He. now destruct e.
Qed.

(** X7. Every round of a batch's poll loop that is run issues exactly one
    status request per job, in the order of [jobIds], whether the round then
    sets a timer, ends the loop or throws; jobs that are already finished or
    failed are asked for like the others. *)
Theorem checkJobs_requests_every_job cb jobIds fileDetails rounds :
  forall attempts s,
    requested (run cb (Some (Multi jobIds fileDetails attempts)) s rounds)
    = concat
        (repeat (map jobUrl jobIds)
           (length (run cb (Some (Multi jobIds fileDetails attempts)) s rounds))).
Proof.
  induction rounds as [|server rest IH]; intros attempts s; [reflexivity|].
  cbn [run tick length repeat concat]. rewrite requested_cons.
  destruct (checkJobs_shape cb jobIds fileDetails attempts server s)
    as (others & Hem & Hothers & Hnext & _).
  rewrite Hem, fetched_urls, (no_fetch_urls others Hothers), app_nil_r. f_equal.
  destruct Hnext as [Hnone|(attempts' & Hsome & _)].
  - rewrite Hnone, run_no_timer. reflexivity.
  - rewrite Hsome. apply IH.
Qed.

Lemma notified_cons st steps :
  notified (st :: steps)
  = (length
       (filter (fun e => match e with SetTimeout OnUploadSuccess _ => true | _ => false end)
          (emitted st))
     + notified steps)%nat.
Proof.
  unfold notified. cbn [flat_map]. now rewrite filter_app, length_app.
Qed.

Lemma no_notification jobIds (others : list Effect) :
  (others = [ConsoleError "Job polling error:"] \/ others = [SetTimeout CheckJobs 3000]) ->
  length
    (filter (fun e => match e with SetTimeout OnUploadSuccess _ => true | _ => false end)
       (map (fun jobId => Fetch "GET" (jobUrl jobId)) jobIds ++ others)%list) = 0%nat.
Proof.
  intros H. rewrite filter_app, length_app.
  assert (Hreq : filter
                   (fun e => match e with SetTimeout OnUploadSuccess _ => true | _ => false end)
                   (map (fun jobId => Fetch "GET" (jobUrl jobId)) jobIds) = []).
  { induction jobIds as [|j js IH]; [reflexivity|exact IH]. }
  rewrite Hreq. destruct H as [-> | ->]; reflexivity.
Qed.

(** A step that sets the next timer does not notify; a step notifies at most
    once, and not at all without the prop. *)
Lemma tick_notifies cb l server s :
  let n :=
    length
      (filter (fun e => match e with SetTimeout OnUploadSuccess _ => true | _ => false end)
         (emitted (tick cb l server s))) in
  (n <= 1)%nat
  /\ (cb = false -> n = 0%nat)
  /\ (next (tick cb l server s) <> None -> n = 0%nat).
Proof.
  destruct l as [jobId filename attempts|jobIds fileDetails attempts]; cbn [tick].
  - unfold checkStatus. destruct (server jobId) as [| |data]; cbn; try (repeat split; lia).
    destruct (Js.eqs (Job.status data) "finished").
    + unfold notifySuccess. destruct cb; cbn; repeat split; try lia; try discriminate.
      intros H. now contradiction H.
    + destruct (Js.eqs (Job.status data) "failed"); [cbn; repeat split; lia|].
      destruct (attempts <? maxAttempts)%Z; cbn; repeat split; lia.
  - destruct (checkJobs_shape cb jobIds fileDetails attempts server s)
      as (others & Hem & _ & Hnext & Hothers).
    cbv zeta. rewrite Hem.
    destruct Hothers as [H|[H|H]].
    + rewrite (no_notification jobIds others) by auto. repeat split; lia.
    + rewrite (no_notification jobIds others) by auto. repeat split; lia.
    + destruct Hnext as [Hnone|(attempts' & Hsome & Hset)].
      * rewrite filter_app, length_app.
        assert (Hreq : filter
                         (fun e => match e with
                                   | SetTimeout OnUploadSuccess _ => true
                                   | _ => false
                                   end)
                         (map (fun jobId => Fetch "GET" (jobUrl jobId)) jobIds) = []).
        { clear. induction jobIds as [|j js IH]; [reflexivity|exact IH]. }
        rewrite Hreq, H. unfold notifySuccess.
        destruct cb; cbn; repeat split; try lia; try discriminate.
        intros Hne. now contradiction Hne.
      * rewrite (no_notification jobIds others) by auto. repeat split; lia.
Qed.

(** X8. A poll loop sets the timer for [onUploadSuccess] at most once in
    all its rounds together, and never when the prop was not passed. *)
Theorem poll_loop_notifies_at_most_once cb rounds :
  forall l s,
    (notified (run cb (Some l) s rounds) <= 1)%nat
    /\ (cb = false -> notified (run cb (Some l) s rounds) = 0%nat).
Proof.
  induction rounds as [|server rest IH]; intros l s; [split; [cbn; lia|reflexivity]|].
  cbn [run]. rewrite notified_cons.
  destruct (tick_notifies cb l server s) as (Hle & Hoff & Hgo). cbv zeta in *.
  destruct (next (tick cb l server s)) as [l'|] eqn:Hnext.
  - rewrite Hgo by discriminate.
    destruct (IH l' (after (tick cb l server s))) as [H1 H2]. split; [exact H1|exact H2].
  - rewrite run_no_timer.
    change (notified []) with 0%nat.
    split; [lia|]. intros Hcb. rewrite (Hoff Hcb). reflexivity.
Qed.

(** X9. A round that writes an error to the console sets no timer: on
    both paths a logged error is the end of the poll loop, and the status line
    and the progress counts are left as they were. *)
Theorem logged_error_ends_the_loop cb l server s :
  logged (tick cb l server s) = true ->
  next (tick cb l server s) = None
  /\ uploadStatus (after (tick cb l server s)) = uploadStatus s
  /\ progress (after (tick cb l server s)) = progress s.
Proof.
  destruct l as [jobId filename attempts|jobIds fileDetails attempts]; cbn [tick]; unfold logged.
  - unfold checkStatus. destruct (server jobId) as [| |data]; try (now repeat split).
    destruct (Js.eqs (Job.status data) "finished").
    + unfold notifySuccess. destruct cb; discriminate.
    + destruct (Js.eqs (Job.status data) "failed"); [discriminate|].
      destruct (attempts <? maxAttempts)%Z; discriminate.
  - assert (Hreq : forall others,
               existsb (fun e => match e with ConsoleError _ => true | _ => false end)
                 (map (fun jobId => Fetch "GET" (jobUrl jobId)) jobIds ++ others)%list
               = existsb (fun e => match e with ConsoleError _ => true | _ => false end) others).
    { intros others. rewrite existsb_app.
      replace (existsb _ (map _ jobIds)) with false; [reflexivity|].
      clear. induction jobIds as [|j js IH]; [reflexivity|exact IH]. }
    unfold checkJobs.
    destruct (updatedDetails fileDetails 0 (statusesOf jobIds server)) as [updated|];
      [|now repeat split].
    destruct (objects (statusesOf jobIds server)) as [objs|]; [|now repeat split].
    destruct (0 <? _)%Z; cbn [emitted]; rewrite Hreq; [discriminate|].
    unfold notifySuccess. destruct cb; discriminate.
Qed.

Lemma logged_error_ends_the_loop_example :
  next (tick true (Single "j1" "a.pdf" 3) unreachable oneFileSubmitted) = None.
Proof.
  exact (proj1 (logged_error_ends_the_loop true (Single "j1" "a.pdf" 3) unreachable
                  oneFileSubmitted eq_refl)).
Defined.

(** ** The last round *)



(** X11. The last round of the poll loop of one job: when the server says
    [finished], the file is shown as [complete] and [onUploadSuccess] is set
    up; when it says [failed], the file is shown as [failed], the status line
    carries the server's error text, or [Unknown error] when there is none or
    an empty one, and [onUploadSuccess] is not set up. Either way nothing is
    asked for afterwards. *)
Theorem last_round_of_one_job cb jobId filename attempts server later s d :
  server jobId = JsonObj d ->
  isTerminal d = true ->
  let steps := run cb (Some (Single jobId filename attempts)) s (server :: later) in
  requested steps = [jobUrl jobId]
  /\ map (fun st => displayed (after st)) steps = [[displayOf d]]
  /\ notified steps = (if cb && isFinished d then 1 else 0)%nat
  /\ map (fun st => uploadStatus (after st)) steps
     = [ if isFinished d then "🎉 Document processed successfully!"
         else "❌ Processing failed: "
              ++ match Job.error d with
                 | Some (String _ _ as text) => text
                 | _ => "Unknown error"
                 end ].
Proof.
  intros Hd Hterm steps. unfold steps. cbn [run tick].
  unfold checkStatus, displayOf. rewrite Hd. fold (isFinished d) (isFailed d).
  destruct (isFinished d) eqn:Hfin.
  - cbn [next after]. rewrite run_no_timer. rewrite andb_true_r.
    unfold notifySuccess. now destruct cb.
  - unfold isTerminal in Hterm. rewrite Hfin in Hterm. cbn [orb] in Hterm.
    rewrite Hterm. cbn [next after]. rewrite run_no_timer. rewrite andb_false_r.
    now repeat split.
Qed.

Lemma last_round_of_one_job_example :
  let server : Round :=
    fun _ => JsonObj {| Job.status := Some "failed"; Job.error := Some "No text layer" |} in
  map (fun st => uploadStatus (after st))
    (run true (Some (Single "j1" "a.pdf" 2)) oneFileSubmitted [server; says "finished"])
  = ["❌ Processing failed: No text layer"].
Proof.
  intros server.
  exact (proj2 (proj2 (proj2
           (last_round_of_one_job true "j1" "a.pdf" 2 server [says "finished"]
              oneFileSubmitted
              {| Job.status := Some "failed"; Job.error := Some "No text layer" |}
              eq_refl eq_refl)))).
Defined.

(** ** The elapsed time of the single-job status line *)

(** X12. While one job is pending, the status line after the [k]-th status
    check shows [2 * k] seconds as minutes and seconds below 60: the time
    shown counts attempts, two seconds each. *)
Theorem elapsed_time_counts_attempts cb jobId filename rounds :
  forall attempts s k st,
    forallb (pendingFor jobId) rounds = true ->
    (0 <= attempts)%Z ->
    (attempts + Z.of_nat (length rounds) <= maxAttempts)%Z ->
    nth_error (run cb (Some (Single jobId filename attempts)) s rounds) k = Some st ->
    exists minutes seconds,
      uploadStatus (after st) = elapsedText minutes seconds
      /\ (60 * minutes + seconds = 2 * (attempts + Z.of_nat k + 1))%Z
      /\ (0 <= seconds < 60)%Z.
Proof.
  induction rounds as [|server rest IH]; intros attempts s k st Hall H0 Hle Hk.
  - now destruct k.
  - cbn [forallb] in Hall. apply andb_prop in Hall as [Hthis Hrest].
    cbn [length] in Hle. rewrite Nat2Z.inj_succ in Hle.
    assert (Hlt : (attempts < maxAttempts)%Z) by lia.
    cbn [run tick] in Hk.
    rewrite (checkStatus_pending cb jobId filename attempts server s Hthis Hlt) in Hk.
    cbn [next after] in Hk.
    destruct k as [|k]; cbn [nth_error] in Hk.
    + inversion Hk; subst st. cbn [after uploadStatus setUploadStatus].
      exists ((attempts + 1) * 2 / 60)%Z, (((attempts + 1) * 2) mod 60)%Z.
      split; [reflexivity|].
      pose proof (Z.div_mod ((attempts + 1) * 2) 60 ltac:(lia)) as Hdm.
      pose proof (Z.mod_pos_bound ((attempts + 1) * 2) 60 ltac:(lia)) as Hmb.
      cbn [Z.of_nat]. lia.
    + destruct (IH (attempts + 1)%Z _ k st Hrest ltac:(lia) ltac:(lia) Hk)
        as (minutes & seconds & Htext & Hsum & Hsec).
      exists minutes, seconds. repeat split; try assumption; lia.
Qed.

Lemma elapsed_time_counts_attempts_example :
  exists st,
    nth_error
      (run true (Some (Single "j1" "a.pdf" 0)) oneFileSubmitted (repeat (says "queued") 40))
      34 = Some st
    /\ uploadStatus (after st) = "⏳ Processing document... (1m 10s)".
Proof.
  destruct (nth_error
              (run true (Some (Single "j1" "a.pdf" 0)) oneFileSubmitted
                 (repeat (says "queued") 40)) 34) as [st|] eqn:Hst;
    [|vm_compute in Hst; discriminate].
  exists st. split; [reflexivity|].
  destruct (elapsed_time_counts_attempts true "j1" "a.pdf" (repeat (says "queued") 40)
              0 oneFileSubmitted 34 st eq_refl ltac:(lia) ltac:(unfold maxAttempts; simpl; lia)
              Hst)
    as (minutes & seconds & Htext & Hsum & Hsec).
  rewrite Htext.
  assert (minutes = 1 /\ seconds = 10)%Z as [-> ->] by lia.
  reflexivity.
Defined.

(** ** The colour of the status box *)

Lemma handleUpload_failure_status server s message :
  (1 <= length (files s) <= 20)%nat ->
  uploadError server s = Some message ->
  uploadStatus (after (handleUpload server s)) = "❌ Upload failed: " ++ message.
Proof.
  intros Hlen Herr.
  destruct (handleUpload_cases server s Hlen)
    as [(file & Hfiles & Hthis)|(f1 & f2 & more & Hfiles & Hmax & Hthis)];
    rewrite Hthis in Herr; unfold handleUpload.
  - rewrite Hfiles. cbn [length Nat.eqb Nat.ltb Nat.leb].
    destruct (upload server file) as [m|http e|m|data]; cbn [thrownBy] in Herr;
      inversion Herr; reflexivity.
  - rewrite Hmax. rewrite Hfiles. cbn [length Nat.eqb]. rewrite <- Hfiles.
    destruct (uploadMultiple server (files s)) as [m|http e|m|data]; cbn [thrownBy] in Herr;
      inversion Herr; rewrite Hfiles; reflexivity.
Qed.

(** X14. After a failed upload the status box is red, unless the message of
    the error (the server's [detail], for a response that is not ok) contains
    the mark of the success line: the box is then green, since the marks are
    looked for anywhere in the status line and the success mark first. *)
Theorem failed_upload_status_colour server s message :
  (1 <= length (files s) <= 20)%nat ->
  uploadError server s = Some message ->
  statusBackground (uploadStatus (after (handleUpload server s)))
  = if Js.includes "🎉" message then "#065f46" else "#991b1b".
Proof.
  intros Hlen Herr. rewrite (handleUpload_failure_status server s message Hlen Herr).
  unfold statusBackground.
  assert (Hparty : Js.includes "🎉" ("❌ Upload failed: " ++ message)
                   = Js.includes "🎉" message) by reflexivity.
  rewrite Hparty. destruct (Js.includes "🎉" message); reflexivity.
Qed.

Lemma failed_upload_status_colour_example :
  let server :=
    {| upload := fun _ => NotOk 500 {| detail := None |};
       uploadMultiple := fun _ => NotOk 500 {| detail := None |} |} in
  uploadStatus (after (handleUpload server twoFiles)) = "❌ Upload failed: HTTP 500"
  /\ statusBackground (uploadStatus (after (handleUpload server twoFiles))) = "#991b1b".
Proof.
  intros server. split; [reflexivity|].
  exact (failed_upload_status_colour server twoFiles "HTTP 500" ltac:(simpl; lia) eq_refl).
Defined.

(** ** [QueryPanel] *)

(** X16. A query whose request is rejected, or whose response is not JSON, is
    handed on as an answer: the answer box shows [Query failed:] with the
    message of the error, the type [error], a time of 0 and no sources. For a
    response that is not JSON the message is the parser's, whatever the
    status of the response. *)
Theorem failed_query_is_shown_as_answer question server message :
  blank question = false ->
  (server question = QueryRejected message
   \/ exists ok http, server question = QueryBadJson ok http message) ->
  fst (handleQuery question server) = [Fetch "POST" "http://localhost:8000/query"]
  /\ exists r,
       AnswerDisplay (snd (handleQuery question server)) = Some r
       /\ answerText r = "Query failed: " ++ message
       /\ queryType r = "error"
       /\ executionTime r = 0%Q
       /\ sourceEntries r = [].
Proof.
  intros Hq Hreply. unfold handleQuery. rewrite Hq.
  destruct Hreply as [Hreply|(ok & http & Hreply)]; rewrite Hreply; cbn [fst snd];
    (split; [reflexivity|]); eexists; (split; [reflexivity|]); now repeat split.
Qed.

Lemma failed_query_is_shown_as_answer_example :
  exists r,
    AnswerDisplay
      (snd (handleQuery "Find components in Zone A"
              (fun _ => QueryBadJson false 502 "Unexpected token < in JSON at position 0")))
    = Some r
    /\ answerText r = "Query failed: Unexpected token < in JSON at position 0".
Proof.
  destruct (failed_query_is_shown_as_answer "Find components in Zone A"
              (fun _ => QueryBadJson false 502 "Unexpected token < in JSON at position 0")
              "Unexpected token < in JSON at position 0" eq_refl
              (or_intror (ex_intro _ false (ex_intro _ 502%Z eq_refl))))
    as (_ & r & Hr & Htext & _).
  exists r. split; [exact Hr|exact Htext].
Defined.

(** ** [AnswerDisplay] *)

Lemma or_else_not_empty v d : d <> "" -> Js.or_else v d <> "".
Proof.
  intros Hd. destruct v as [[|c s]|]; cbn; try exact Hd. discriminate.
Qed.

Lemma mapi_Forall {A B} (f : A -> nat -> B) (P : B -> Prop) (arr : list A) :
  (forall x i, P (f x i)) -> forall i, Forall P (Js.mapi f i arr).
Proof.
  intros Hf. induction arr as [|x rest IH]; intros i; cbn [Js.mapi]; constructor; auto.
Qed.

Lemma mapi_keys {A} (f : A -> nat -> SourceEntry) (arr : list A) :
  (forall x i, key (f x i) = i) ->
  forall i, map key (Js.mapi f i arr) = seq i (length arr).
Proof.
  intros Hf. induction arr as [|x rest IH]; intros i; cbn [Js.mapi map seq length];
    [reflexivity|].
  now rewrite Hf, IH.
Qed.

(** X17. Without an answer nothing is rendered. With one, whatever keys it
    lacks, no text of the answer box is empty: the answer text, the query type
    and the file name of every source line fall back to a placeholder; at
    most five source lines are rendered, and their keys are their positions
    from 0. *)
Theorem AnswerDisplay_never_renders_an_empty_text (prop : option Answer) :
  match prop, AnswerDisplay prop with
  | None, None => True
  | Some a, Some r =>
      answerText r <> ""
      /\ queryType r <> ""
      /\ Forall (fun entry => shownName entry <> "" /\ icon entry <> "") (sourceEntries r)
      /\ (length (sourceEntries r) <= 5)%nat
      /\ map key (sourceEntries r) = seq 0 (length (sourceEntries r))
  | _, _ => False
  end.
Proof.
  destruct prop as [a|]; [|exact I]. cbn [AnswerDisplay answerText queryType sourceEntries].
  split; [apply or_else_not_empty; discriminate|].
  split; [apply or_else_not_empty; discriminate|].
  set (srcs := match sources a with Some l => l | None => [] end).
  destruct (0 <? length srcs)%nat.
  - split; [|split].
    + apply mapi_Forall. intros src i. unfold sourceEntry. cbn [shownName icon]. split.
      * apply or_else_not_empty. discriminate.
      * destruct (Source.is_diagram src); discriminate.
    + rewrite mapi_length, length_firstn. lia.
    + rewrite mapi_length. now apply mapi_keys.
  - split; [constructor|]. split; [cbn; lia|reflexivity].
Qed.

(** ** [App] *)

(** X18. [handleQueryResult] always shows the new answer, and replaces the
    graph only when the result brings nodes: a result without nodes (or with
    an empty list) leaves the graph of an earlier query in place. When the
    graph is replaced it has one node per node of the result, in order and
    with the same ids, a node without a name in its properties is named by
    its id, and there is one link per edge, none when [edges] is missing. *)
Theorem handleQueryResult_graph {M} (data : QueryData) (s : App.State M) :
  let s' := App.handleQueryResult data s in
  App.answer s' = Some (shown data)
  /\ App.metrics s' = App.metrics s
  /\ App.backendError s' = App.backendError s
  /\ App.loading s' = App.loading s
  /\ (hasNodes data = false -> App.graphData s' = App.graphData s)
  /\ (hasNodes data = true ->
      map GraphNode.id (Graph.nodes (App.graphData s'))
      = map Node.id (match nodes data with Some ns => ns | None => [] end)
      /\ Forall (fun g => GraphNode.name g = "" -> GraphNode.id g = "")
           (Graph.nodes (App.graphData s'))
      /\ length (Graph.links (App.graphData s'))
         = length (match edges data with Some es => es | None => [] end)).
Proof.
  unfold App.handleQueryResult, hasNodes.
  destruct (nodes data) as [[|n ns]|]; cbn; repeat split; try discriminate; try reflexivity.
  - now rewrite map_map.
  - constructor.
    + unfold App.graphNode. cbn [GraphNode.name GraphNode.id].
      destruct (Node.properties n) as [[[[|c nm]|]]|]; cbn; try tauto; discriminate.
    + apply Forall_map, Forall_forall. intros n' _.
      unfold App.graphNode. cbn [GraphNode.name GraphNode.id].
      destruct (Node.properties n') as [[[[|c nm]|]]|]; cbn; try tauto; discriminate.
  - destruct (edges data) as [es|]; [now rewrite length_map|reflexivity].
Qed.

Lemma graph_panel_invariant {M H} (es : list (App.Event M H)) :
  forall s : App.State M,
    GraphVisualization (Some (App.graphData (fold_left App.react es s))) = NoGraphData
    <-> (GraphVisualization (Some (App.graphData s)) = NoGraphData
         /\ forall data, In (App.QueryResult data) es -> hasNodes data = false).
Proof.
  induction es as [|e es IH]; intros s; cbn [fold_left].
  - split; [intros Hs; split; [exact Hs|intros data []]|now intros [Hs _]].
  - rewrite IH. clear IH.
    assert (Hstep :
              GraphVisualization (Some (App.graphData (App.react s e))) = NoGraphData
              <-> (GraphVisualization (Some (App.graphData s)) = NoGraphData
                   /\ match e with
                      | App.QueryResult data => hasNodes data = false
                      | _ => True
                      end)).
    { destruct e as [health reply|reply|reply|data]; cbn [App.react].
      - unfold App.checkBackend, App.fetchMetrics.
        destruct (api.health health); [destruct (api.getMetrics reply)|]; cbn; tauto.
      - unfold App.fetchMetrics. destruct (api.getMetrics reply); cbn; tauto.
      - unfold App.fetchMetrics. destruct (api.getMetrics reply); cbn; tauto.
      - unfold App.handleQueryResult, hasNodes.
        destruct (nodes data) as [[|n ns]|]; cbn; try tauto.
        split; [discriminate|]. intros [_ Hno]. discriminate. }
    rewrite Hstep. split.
    + intros [[Hs He] Hes]. split; [exact Hs|].
      intros data [Heq|Hin]; [subst e; exact He|now apply Hes].
    + intros [Hs Hall]. split; [split; [exact Hs|]|].
      * destruct e; try exact I. apply Hall. now left.
      * intros data Hin. apply Hall. now right.
Qed.

(** X19. Fed with [App]'s graph data, the graph panel shows the text that
    there is no graph data exactly as long as no query result has brought a
    node since the mount: once a graph is drawn, no later event, and no later
    result without nodes, brings the text back. *)
Theorem graph_panel_is_empty_until_nodes_arrive {M H}
    (health : HttpReply H) (reply : HttpReply M) (es : list (App.Event M H)) :
  GraphVisualization (Some (App.graphData (App.mounted health reply es))) = NoGraphData
  <-> forall data, In (App.QueryResult data) es -> hasNodes data = false.
Proof.
  unfold App.mounted. rewrite graph_panel_invariant.
  split; [now intros [_ Hall]|]. intros Hall. split; [|exact Hall].
  unfold App.checkBackend, App.fetchMetrics.
  destruct (api.health health); [destruct (api.getMetrics reply)|]; reflexivity.
Qed.

(** X20. The health check of the mount decides the first screen by one
    thing only, whether a JSON body came back: any response with a JSON body,
    a status that is not ok included, leads to the dashboard; a rejected
    request or a body that is not JSON leads to the connection error. *)
Theorem first_screen_after_mount {M H} (health : HttpReply H) (reply : HttpReply M) :
  App.screen (App.mounted health reply (@nil (App.Event M H)))
  = match health with
    | HttpJson _ _ _ => App.Dashboard
    | _ => App.ConnectionError App.unavailable
    end.
Proof.
  unfold App.mounted, App.checkBackend, App.fetchMetrics. cbn [fold_left].
  destruct health as [m|ok http m|ok http body]; cbn [api.health]; try reflexivity.
  destruct (api.getMetrics reply); reflexivity.
Qed.

Lemma app_invariant {M H} (es : list (App.Event M H)) :
  forall s : App.State M,
    App.loading s = false ->
    (App.backendError s = None \/ App.backendError s = Some App.unavailable) ->
    App.loading (fold_left App.react es s) = false
    /\ (App.backendError (fold_left App.react es s) = None
        \/ App.backendError (fold_left App.react es s) = Some App.unavailable).
Proof.
  induction es as [|e es IH]; intros s Hload Herr; cbn [fold_left]; [now split|].
  apply IH.
  - destruct e as [health reply|reply|reply|data]; cbn [App.react].
    + unfold App.checkBackend, App.fetchMetrics.
      destruct (api.health health); [destruct (api.getMetrics reply)|]; reflexivity.
    + unfold App.fetchMetrics. destruct (api.getMetrics reply); exact Hload.
    + unfold App.fetchMetrics. destruct (api.getMetrics reply); exact Hload.
    + unfold App.handleQueryResult. destruct (nodes data) as [[|n ns]|]; exact Hload.
  - destruct e as [health reply|reply|reply|data]; cbn [App.react].
    + unfold App.checkBackend, App.fetchMetrics.
      destruct (api.health health); [destruct (api.getMetrics reply)|]; cbn; auto.
    + unfold App.fetchMetrics. destruct (api.getMetrics reply); cbn; auto.
    + unfold App.fetchMetrics. destruct (api.getMetrics reply); cbn; auto.
    + unfold App.handleQueryResult. destruct (nodes data) as [[|n ns]|]; exact Herr.
Qed.

(** X21. Once the health check of the mount has come back, [App] never
    shows the connecting screen again: after any events it shows the
    dashboard or the connection error with its fixed text. *)
Theorem app_never_connects_twice {M H}
    (health : HttpReply H) (reply : HttpReply M) (es : list (App.Event M H)) :
  App.screen (App.mounted health reply es) = App.Dashboard
  \/ App.screen (App.mounted health reply es) = App.ConnectionError App.unavailable.
Proof.
  unfold App.mounted.
  destruct (app_invariant es (App.checkBackend health reply App.initial)) as [Hload Herr].
  - unfold App.checkBackend, App.fetchMetrics.
    destruct (api.health health); [destruct (api.getMetrics reply)|]; reflexivity.
  - unfold App.checkBackend, App.fetchMetrics.
    destruct (api.health health); [destruct (api.getMetrics reply)|]; cbn; auto.
  - unfold App.screen. rewrite Hload.
    destruct Herr as [-> | ->]; [now left|now right].
Qed.

(** X22. A metrics request changes the state only when the response is ok
    and has a JSON body: then the metrics are stored and the connection error
    is cleared, so that the error screen of a failed health check gives way to
    the dashboard without a retry. Every other outcome, a response that is not
    ok included, leaves the state as it was, the last metrics with it. *)
Theorem fetchMetrics_outcome {M} (reply : HttpReply M) (s : App.State M) :
  match reply with
  | HttpJson true _ data =>
      App.metrics (App.fetchMetrics reply s) = Some data
      /\ App.backendError (App.fetchMetrics reply s) = None
      /\ (App.loading s = false -> App.screen (App.fetchMetrics reply s) = App.Dashboard)
      /\ App.answer (App.fetchMetrics reply s) = App.answer s
      /\ App.graphData (App.fetchMetrics reply s) = App.graphData s
  | _ => App.fetchMetrics reply s = s
  end.
Proof.
  destruct reply as [m|ok http m|ok http data]; try reflexivity.
  - now destruct ok.
  - destruct ok; [|reflexivity].
    unfold App.fetchMetrics, App.screen. cbn. repeat split. now intros ->.
Qed.

(** ** A round after the selection has changed *)

(** X24. When the user changes the selection while the poll loop of a batch
    is pending, the progress is reset to nothing; the next round of the loop
    then builds the progress from nothing: it has the counts of the round but
    neither [total] nor [successful], and the file status list of the old
    batch is back beside the new selection. *)
Theorem round_after_new_selection cb w i jobIds fileDetails attempts server selectedFiles :
  nth_error (timers w) i = Some (Multi jobIds fileDetails attempts) ->
  wellFormed jobIds fileDetails server = true ->
  let w' := reacts cb w [Select selectedFiles; Timer i server] in
  files (view w') = selectedFiles
  /\ processingDetails (view w') = zipDetails fileDetails (objectsOf jobIds server)
  /\ progress (view w')
     = Some {| Progress.total := None; Progress.successful := None;
               Progress.failed := Some (Js.count isFailed (objectsOf jobIds server));
               Progress.completed := Some (Js.count isFinished (objectsOf jobIds server)) |}.
Proof.
  intros Hi Hwf w'. unfold w', reacts. cbn [fold_left react timers view].
  rewrite Hi. unfold settle. cbn [view tick].
  destruct (somePending jobIds server) eqn:Hp.
  - rewrite (checkJobs_pending cb jobIds fileDetails attempts server _ Hwf Hp).
    cbv zeta. now repeat split.
  - rewrite (checkJobs_done cb jobIds fileDetails attempts server _ Hwf Hp).
    cbv zeta. now repeat split.
Qed.

Lemma round_after_new_selection_example :
  let w' :=
    reacts true secondBatchSubmitted
      [Select [ {| name := "e.pdf" |} ]; Timer 1 (says "started")] in
  map name (files (view w')) = ["e.pdf"]
  /\ displayed (view w') = ["processing"; "processing"]
  /\ option_map Progress.total (progress (view w')) = Some None.
Proof.
  intros w'.
  destruct (round_after_new_selection true secondBatchSubmitted 1 ["b1"; "b2"]
              [queuedAs "c.pdf" "b1"; queuedAs "d.pdf" "b2"] 0 (says "started")
              [ {| name := "e.pdf" |} ] eq_refl eq_refl)
    as (Hfiles & Hdetails & Hprogress).
  fold w' in Hfiles, Hdetails, Hprogress.
  rewrite Hfiles. unfold displayed. rewrite Hdetails, Hprogress.
  repeat split.
Defined.

(** * Rounds that throw, loops of both kinds, and the percentage *)

(** ** The percentage of the status line *)

(** In the double arithmetic of the code, the percentage of a batch of up to
    20 jobs, the limit of an upload, is the whole percent nearest to
    [100 * completed / total], a half going up. (At 23 of 40 the double is
    just below 57.5 and the percentage is 57.) *)
Lemma percentOf_within_the_limit completed total :
  (0 <= completed <= total)%Z ->
  (0 < total <= 20)%Z ->
  percentOf completed total = ((200 * completed + total) / (2 * total))%Z.
Proof.
  intros Hc Ht.
  assert (Hall : forallb percentIsNearest (map Z.of_nat (seq 1 20)) = true)
    by (vm_compute; reflexivity).
  rewrite forallb_forall in Hall.
  assert (Hin : In total (map Z.of_nat (seq 1 20))).
  { apply in_map_iff. exists (Z.to_nat total). split; [lia|]. apply in_seq. lia. }
  specialize (Hall total Hin). unfold percentIsNearest in Hall.
  rewrite forallb_forall in Hall.
  assert (Hin' : In completed (map Z.of_nat (seq 0 (S (Z.to_nat total))))).
  { apply in_map_iff. exists (Z.to_nat completed). split; [lia|]. apply in_seq. lia. }
  specialize (Hall completed Hin'). now apply Z.eqb_eq in Hall.
Qed.

(** ** A round of [checkJobs], whether it throws or not *)

Lemma forallb_false_exists {A} (f : A -> bool) (l : list A) :
  forallb f l = false -> exists x, In x l /\ f x = false.
Proof.
  induction l as [|x rest IH]; cbn [forallb]; [discriminate|].
  destruct (f x) eqn:Hx; cbn [andb].
  - intros H. destruct (IH H) as (y & Hin & Hy). exists y. split; [now right|exact Hy].
  - intros _. exists x. split; [now left|exact Hx].
Qed.

Lemma logged_after_requests (s' : State) (l : option Loop) jobIds (others : list Effect) :
  logged {| after := s'; next := l;
            emitted := (map (fun jobId => Fetch "GET" (jobUrl jobId)) jobIds ++ others)%list |}
  = existsb (fun e => match e with ConsoleError _ => true | _ => false end) others.
Proof.
  unfold logged. cbn [emitted]. rewrite existsb_app.
  replace (existsb _ (map _ jobIds)) with false; [reflexivity|].
  induction jobIds as [|j js IH]; [reflexivity|exact IH].
Qed.

(** A round that is not well formed throws: it has asked for every job, it
    logs, and it sets no timer; of the state at most the file status list has
    changed. *)
Lemma checkJobs_throws cb jobIds fileDetails attempts server s :
  wellFormed jobIds fileDetails server = false ->
  exists s',
    checkJobs cb jobIds fileDetails attempts server s
    = {| after := s'; next := None;
         emitted :=
           (map (fun jobId => Fetch "GET" (jobUrl jobId)) jobIds
            ++ [ConsoleError "Job polling error:"])%list |}
    /\ uploadStatus s' = uploadStatus s
    /\ progress s' = progress s
    /\ files s' = files s.
Proof.
  intros Hwf. unfold wellFormed in Hwf. apply andb_false_iff in Hwf.
  unfold checkJobs. destruct Hwf as [Hlen|Hnull].
  - apply Nat.leb_gt in Hlen.
    rewrite (updatedDetails_short fileDetails (statusesOf jobIds server) 0)
      by (unfold statusesOf; rewrite ?length_map; simpl; lia).
    exists s. now repeat split.
  - apply forallb_false_exists in Hnull as (jobId & Hin & Hnull).
    assert (Hobjs : objects (statusesOf jobIds server) = None).
    { apply objects_null. unfold statusesOf. apply in_map_iff.
      exists jobId. split; [|exact Hin]. now destruct (server jobId). }
    destruct (updatedDetails fileDetails 0 (statusesOf jobIds server)) as [updated|].
    + rewrite Hobjs. eexists. now repeat split.
    + exists s. now repeat split.
Qed.

(** C8. Every round of a batch of [n] jobs either throws, and then reports
    nothing (no timer is set, and the progress and the status line stay as
    they were), or reports counts: those written to [progress], and used for
    the status line, are the numbers of finished, failed and other answers;
    together they make [n]; polling goes on exactly when the third is
    positive; and the percentage in the status line is
    [Math.round((completed / n) * 100)], which for up to 20 jobs is
    [completed / n] as a whole number of percent, rounded to the nearest. *)
Theorem checkJobs_counts cb jobIds fileDetails attempts server s :
  let n := Z.of_nat (length jobIds) in
  let objs := objectsOf jobIds server in
  let st := checkJobs cb jobIds fileDetails attempts server s in
  (wellFormed jobIds fileDetails server = false
   /\ logged st = true
   /\ next st = None
   /\ progress (after st) = progress s
   /\ uploadStatus (after st) = uploadStatus s)
  \/ (wellFormed jobIds fileDetails server = true
      /\ logged st = false
      /\ exists completed failed stillProcessing p,
           progress (after st) = Some p
           /\ Progress.completed p = Some completed
           /\ Progress.failed p = Some failed
           /\ completed = Js.count isFinished objs
           /\ failed = Js.count isFailed objs
           /\ stillProcessing
              = Js.count (fun d => negb (isFinished d) && negb (isFailed d)) objs
           /\ (completed + failed + stillProcessing = n)%Z
           /\ ((0 < stillProcessing)%Z <-> next st <> None)
           /\ ((0 < stillProcessing)%Z ->
               uploadStatus (after st)
               = processingText completed n (percentOf completed n)
                   ((attempts + 1) * 3 / 60) failed
               /\ ((n <= 20)%Z ->
                   (2 * n * percentOf completed n <= 200 * completed + n
                    < 2 * n * (percentOf completed n + 1))%Z))).
Proof.
  intros n objs st.
  destruct (wellFormed jobIds fileDetails server) eqn:Hwf.
  - right. split; [reflexivity|].
    pose proof (count_split isFinished isFailed objs finished_not_failed) as Hsum.
    assert (Hn : Z.of_nat (length objs) = n)
      by (unfold objs, objectsOf; now rewrite length_map).
    rewrite Hn in Hsum.
    set (completed := Js.count isFinished objs) in *.
    set (failed := Js.count isFailed objs) in *.
    set (others := Js.count (fun d => negb (isFinished d) && negb (isFailed d)) objs) in *.
    assert (Hproc : (n - completed - failed = others)%Z) by lia.
    pose proof (checkJobs_wellFormed cb jobIds fileDetails attempts server s Hwf) as Hst.
    cbv zeta in Hst. fold (objectsOf jobIds server) in Hst.
    fold n objs completed failed st in Hst. rewrite Hproc in Hst.
    destruct (0 <? others)%Z eqn:Hpos.
    + apply Z.ltb_lt in Hpos. rewrite Hst. split.
      * rewrite logged_after_requests. reflexivity.
      * exists completed, failed, others. eexists.
        cbn [after next progress uploadStatus setUploadStatus setProgress
             Progress.completed Progress.failed withCounts].
        repeat split; try reflexivity; try assumption; try discriminate;
          try (intros _; assumption).
        all: assert (0 <= completed)%Z by (unfold completed, Js.count; lia).
        all: assert (0 <= failed)%Z by (unfold failed, Js.count; lia).
        all: rewrite (percentOf_within_the_limit completed n) by lia.
        all: pose proof (Z.div_mod (200 * completed + n) (2 * n)) as Hdm.
        all: pose proof (Z.mod_pos_bound (200 * completed + n) (2 * n)) as Hmb.
        all: nia.
    + apply Z.ltb_ge in Hpos. rewrite Hst. split.
      * rewrite logged_after_requests. unfold notifySuccess. now destruct cb.
      * exists completed, failed, others. eexists.
        cbn [after next progress uploadStatus setUploadStatus setProgress
             Progress.completed Progress.failed withCounts].
        repeat split; try reflexivity; try assumption; try lia.
        intros Hne. now contradiction Hne.
  - left. split; [reflexivity|].
    destruct (checkJobs_throws cb jobIds fileDetails attempts server s Hwf)
      as (s' & Hst & Hstatus & Hprogress & _).
    unfold st. rewrite Hst. cbn [after next]. rewrite logged_after_requests.
    now repeat split.
Qed.

(** C8 on three jobs answered [finished], [failed] and [started]: the counts
    are 1, 1 and 1, polling goes on, and the status line says 33%. *)
Lemma checkJobs_counts_example :
  let st :=
    checkJobs true ["j1"; "j2"; "j3"]
      [queuedAs "a.pdf" "j1"; queuedAs "b.pdf" "j2"; queuedAs "c.pdf" "j3"] 0
      (except "j1" (says "finished") (except "j2" (says "failed") (says "started")))
      twoFiles in
  option_map Progress.completed (progress (after st)) = Some (Some 1%Z)
  /\ option_map Progress.failed (progress (after st)) = Some (Some 1%Z)
  /\ next st <> None
  /\ uploadStatus (after st) = "⏳ Processing: 1/3 complete (33%) - 0m elapsed - 1 failed".
Proof.
  intros st.
  destruct (checkJobs_counts true ["j1"; "j2"; "j3"]
              [queuedAs "a.pdf" "j1"; queuedAs "b.pdf" "j2"; queuedAs "c.pdf" "j3"] 0
              (except "j1" (says "finished") (except "j2" (says "failed") (says "started")))
              twoFiles)
    as [(Hwf & _)|(_ & _ & completed & failed & others & p
                   & Hp & Hc & Hf & Hcv & Hfv & Hov & Hsum & Hgo & Htext)];
    [discriminate Hwf|].
  fold st in Hp, Hgo, Htext.
  assert (Hpos : (0 < others)%Z) by (rewrite Hov; reflexivity).
  destruct (Htext Hpos) as [Hline _].
  rewrite Hp. cbn [option_map]. rewrite Hc, Hf, Hcv, Hfv.
  split; [reflexivity|]. split; [reflexivity|]. split; [now apply Hgo|].
  rewrite Hline, Hcv, Hfv. reflexivity.
Defined.

(** ** Terminal jobs inside a batch, in rounds of every kind *)

Lemma displayed_after_round_at jobIds fileDetails server s i jobId detail :
  (length fileDetails <= length jobIds)%nat ->
  nth_error jobIds i = Some jobId ->
  nth_error fileDetails i = Some detail ->
  nth_error (displayed (shownAfter jobIds fileDetails server s)) i
  = Some (displayOf (answerOf (server jobId))).
Proof.
  intros Hlen Hi Hd. unfold displayed, shownAfter.
  cbn [processingDetails setProgress setProcessingDetails].
  apply displayed_zipDetails.
  - apply nth_error_Some. now rewrite Hd.
  - unfold objectsOf. now rewrite nth_error_map, Hi.
Qed.

(** C3, as the code has it. Every round of a batch that is run asks for
    every job, and a round that runs to its end shows for each job the image
    of that round's answer alone. So while some job of the batch is pending,
    a job already shown as [complete] or [failed] is asked for again, and
    keeps its state exactly when the answer is again [finished] or [failed]
    respectively. Requests stop, for all jobs at once, after the first round
    in which no job is pending or which throws. *)
Theorem terminal_jobs_of_a_batch cb jobIds fileDetails attempts s r1 r2 later :
  let steps := run cb (Some (Multi jobIds fileDetails attempts)) s (r1 :: r2 :: later) in
  ((wellFormed jobIds fileDetails r1 = false \/ somePending jobIds r1 = false) ->
   requested steps = map jobUrl jobIds
   /\ snd (final (Some (Multi jobIds fileDetails attempts)) s steps) = None)
  /\ (wellFormed jobIds fileDetails r1 = true ->
      somePending jobIds r1 = true ->
      exists st1 st2 more,
        steps = st1 :: st2 :: more
        /\ requested [st1; st2] = (map jobUrl jobIds ++ map jobUrl jobIds)%list
        /\ (wellFormed jobIds fileDetails r2 = false -> next st2 = None /\ more = [])
        /\ forall i jobId detail,
             nth_error jobIds i = Some jobId ->
             nth_error fileDetails i = Some detail ->
             nth_error (displayed (after st1)) i = Some (displayOf (answerOf (r1 jobId)))
             /\ (wellFormed jobIds fileDetails r2 = true ->
                 nth_error (displayed (after st2)) i
                 = Some (displayOf (answerOf (r2 jobId))))).
Proof.
  intros steps. split.
  - intros Hend. unfold steps. cbn [run tick].
    destruct (wellFormed jobIds fileDetails r1) eqn:Hwf1.
    + destruct Hend as [Hend|Hp1]; [discriminate|].
      rewrite (checkJobs_done cb jobIds fileDetails attempts r1 s Hwf1 Hp1).
      cbv zeta. cbn [next after]. split; [|reflexivity].
      rewrite requested_cons. cbn [emitted]. rewrite fetched_urls.
      unfold notifySuccess, requested.
      destruct cb; cbn [flat_map app]; now rewrite !app_nil_r.
    + destruct (checkJobs_throws cb jobIds fileDetails attempts r1 s Hwf1)
        as (s' & Hst & _).
      rewrite Hst. cbn [next after]. split; [|reflexivity].
      rewrite requested_cons. cbn [emitted]. rewrite fetched_urls.
      unfold requested. cbn [flat_map app]. now rewrite !app_nil_r.
  - intros Hwf1 Hp1. unfold steps. cbn [run tick].
    rewrite (checkJobs_pending cb jobIds fileDetails attempts r1 s Hwf1 Hp1).
    cbv zeta. cbn [next after tick].
    set (s1 := setUploadStatus _ (shownAfter jobIds fileDetails r1 s)).
    set (st2 := checkJobs cb jobIds fileDetails (attempts + 1) r2 s1).
    assert (Hlen : (length fileDetails <= length jobIds)%nat).
    { unfold wellFormed in Hwf1. apply andb_prop in Hwf1 as [Hle _].
      now apply Nat.leb_le. }
    assert (Hst2 :
              exists others,
                emitted st2
                = (map (fun jobId => Fetch "GET" (jobUrl jobId)) jobIds ++ others)%list
                /\ flat_map (fun e => match e with Fetch _ url => [url] | _ => [] end) others
                   = []
                /\ (wellFormed jobIds fileDetails r2 = false -> next st2 = None)
                /\ (wellFormed jobIds fileDetails r2 = true ->
                    displayed (after st2)
                    = displayed (shownAfter jobIds fileDetails r2 s1))).
    { unfold st2. destruct (wellFormed jobIds fileDetails r2) eqn:Hwf2.
      - destruct (somePending jobIds r2) eqn:Hp2.
        + rewrite (checkJobs_pending cb jobIds fileDetails (attempts + 1) r2 s1 Hwf2 Hp2).
          eexists. split; [reflexivity|]. split; [reflexivity|].
          split; [discriminate|reflexivity].
        + rewrite (checkJobs_done cb jobIds fileDetails (attempts + 1) r2 s1 Hwf2 Hp2).
          eexists. split; [reflexivity|].
          split; [unfold notifySuccess; now destruct cb|].
          split; [discriminate|reflexivity].
      - destruct (checkJobs_throws cb jobIds fileDetails (attempts + 1) r2 s1 Hwf2)
          as (s' & Hst & _).
        rewrite Hst. eexists. split; [reflexivity|]. split; [reflexivity|].
        split; [reflexivity|discriminate]. }
    destruct Hst2 as (others & Hem2 & Hnone & Hthrow & Hshown2).
    eexists _, st2, _. split; [reflexivity|]. split; [|split].
    + rewrite !requested_cons. cbn [emitted]. rewrite Hem2, !fetched_urls, Hnone.
      unfold requested. cbn [flat_map app]. now rewrite !app_nil_r.
    + intros Hwf2. pose proof (Hthrow Hwf2) as Hnext. split; [exact Hnext|].
      rewrite Hnext. apply run_no_timer.
    + intros i jobId detail Hi Hd. cbn [after]. split.
      * unfold s1.
        apply (displayed_after_round_at jobIds fileDetails r1 s i jobId detail Hlen Hi Hd).
      * intros Hwf2. rewrite (Hshown2 Hwf2).
        apply (displayed_after_round_at jobIds fileDetails r2 s1 i jobId detail Hlen Hi Hd).
Qed.

(** C3 on two jobs, the first finished in round 1 and finished again in round
    2, the second queued: the first job is asked for again in round 2 and is
    shown as [complete] after both rounds. *)
Lemma terminal_jobs_of_a_batch_example :
  let r1 := except "j1" (says "finished") (says "queued") in
  exists st1 st2 more,
    run true (Some (Multi ["j1"; "j2"] [queuedAs "a.pdf" "j1"; queuedAs "b.pdf" "j2"] 0))
      twoFiles [r1; r1; says "finished"]
    = st1 :: st2 :: more
    /\ requested [st2] = ["http://localhost:8000/job/j1"; "http://localhost:8000/job/j2"]
    /\ nth_error (displayed (after st1)) 0 = Some "complete"
    /\ nth_error (displayed (after st2)) 0 = Some "complete".
Proof.
  intros r1.
  destruct (proj2 (terminal_jobs_of_a_batch true ["j1"; "j2"]
                     [queuedAs "a.pdf" "j1"; queuedAs "b.pdf" "j2"] 0 twoFiles
                     r1 r1 [says "finished"]) eq_refl eq_refl)
    as (st1 & st2 & more & Hrun & Hreq & _ & Hshown).
  exists st1, st2, more. split; [exact Hrun|].
  destruct (Hshown 0%nat "j1" (queuedAs "a.pdf" "j1") eq_refl eq_refl) as [H1 H2].
  split; [|split; [exact H1|exact (H2 eq_refl)]].
  rewrite requested_cons in Hreq. rewrite requested_cons.
  injection Hrun as Hst1 Hst2 _. subst st2. reflexivity.
Defined.

(** ** A pending loop of either kind and the display *)

(** C4, as the code has it. A poll loop carries no mark of its submission
    and nothing cancels its timer: when the timer of any pending loop fires
    and the round runs to its end, the round writes to the display state
    whatever that state shows at the time. A round of a batch loop replaces
    the file list by the list of its own batch, the progress counts by the
    counts of that batch's answers, and the status line by the line of the
    round. A round of a single-job loop replaces the status line, and, when
    its job is finished or failed, the file list by the one entry of its own
    file; it leaves the progress counts alone. *)
Theorem pending_loop_writes_the_display cb w i l server :
  nth_error (timers w) i = Some l ->
  let shown := view (react cb w (Timer i server)) in
  match l with
  | Multi jobIds fileDetails attempts =>
      wellFormed jobIds fileDetails server = true ->
      let objs := objectsOf jobIds server in
      let completed := Js.count isFinished objs in
      let failed := Js.count isFailed objs in
      let total := Z.of_nat (length jobIds) in
      map Detail.filename (processingDetails shown) = map Srv.filename fileDetails
      /\ processingDetails shown = zipDetails fileDetails objs
      /\ progress shown = Some (withCounts completed failed (progress (view w)))
      /\ uploadStatus shown
         = if somePending jobIds server
           then processingText completed total (percentOf completed total)
                  ((attempts + 1) * 3 / 60) failed
           else completeText total completed failed
  | Single jobId filename attempts =>
      forall d,
        server jobId = JsonObj d ->
        progress shown = progress (view w)
        /\ if isTerminal d then
             processingDetails shown
             = [ {| Detail.filename := filename; Detail.status := displayOf d;
                    Detail.jobId := Some jobId;
                    Detail.error := if isFailed d then Job.error d else None |} ]
             /\ uploadStatus shown
                = (if isFinished d then "🎉 Document processed successfully!"
                   else "❌ Processing failed: " ++ Js.or_else (Job.error d) "Unknown error")
           else
             processingDetails shown = processingDetails (view w)
             /\ uploadStatus shown
                = (if (attempts <? maxAttempts)%Z
                   then elapsedText ((attempts + 1) * 2 / 60) (((attempts + 1) * 2) mod 60)
                   else takingLonger)
  end.
Proof.
  intros Hi shown. unfold shown, react. rewrite Hi. unfold settle.
  destruct l as [jobId filename attempts|jobIds fileDetails attempts]; cbn [view tick].
  - intros d Hd. unfold checkStatus, displayOf, isTerminal. rewrite Hd.
    fold (isFinished d) (isFailed d).
    destruct (isFinished d) eqn:Hfin.
    + rewrite (finished_not_failed d Hfin). now repeat split.
    + destruct (isFailed d); cbn [orb]; [now repeat split|].
      destruct (attempts <? maxAttempts)%Z; now repeat split.
  - intros Hwf. set (objs := objectsOf jobIds server).
    assert (Hlen : (length fileDetails <= length objs)%nat).
    { apply andb_prop in Hwf as [Hle _]. apply Nat.leb_le in Hle.
      unfold objs, objectsOf. now rewrite length_map. }
    destruct (somePending jobIds server) eqn:Hp.
    + rewrite (checkJobs_pending cb jobIds fileDetails attempts server (view w) Hwf Hp).
      cbv zeta. cbn [after processingDetails progress uploadStatus setUploadStatus].
      unfold shownAfter.
      cbn [processingDetails progress uploadStatus setProgress setProcessingDetails].
      fold objs. rewrite (filenames_zipDetails fileDetails objs Hlen). now repeat split.
    + rewrite (checkJobs_done cb jobIds fileDetails attempts server (view w) Hwf Hp).
      cbv zeta. cbn [after processingDetails progress uploadStatus setUploadStatus].
      unfold shownAfter.
      cbn [processingDetails progress uploadStatus setProgress setProcessingDetails].
      fold objs. rewrite (filenames_zipDetails fileDetails objs Hlen). now repeat split.
Qed.

(** C4 on the second batch of the example: the timer of the first batch's
    loop fires and the theorem gives the file list that is then shown. *)
Lemma pending_loop_writes_the_display_example :
  map Detail.filename
    (processingDetails (view (react true secondBatchSubmitted (Timer 0 (says "finished")))))
  = ["a.pdf"; "b.pdf"].
Proof.
  exact (proj1 (pending_loop_writes_the_display true secondBatchSubmitted 0
                  (Multi ["a1"; "a2"] [queuedAs "a.pdf" "a1"; queuedAs "b.pdf" "a2"] 0)
                  (says "finished") eq_refl eq_refl)).
Defined.

(** ** Pending poll loops of the component *)

Lemma nth_error_without {A} (l : list A) (i j : nat) (x : A) :
  j <> i ->
  nth_error l j = Some x ->
  nth_error (firstn i l ++ skipn (S i) l)%list (if (j <? i)%nat then j else pred j) = Some x.
Proof.
  intros Hne Hj.
  assert (Hlt : (j < length l)%nat) by (apply nth_error_Some; now rewrite Hj).
  destruct (j <? i)%nat eqn:Hji.
  - apply Nat.ltb_lt in Hji.
    rewrite nth_error_app1 by (rewrite length_firstn; lia).
    rewrite nth_error_firstn. apply Nat.ltb_lt in Hji. now rewrite Hji.
  - apply Nat.ltb_ge in Hji.
    rewrite nth_error_app2 by (rewrite length_firstn; lia).
    rewrite length_firstn, nth_error_skipn. rewrite <- Hj. f_equal. lia.
Qed.

(** X13. No event cancels a pending poll loop. A change of the selection
    and the removal of a file leave the pending timers as they are (and the
    new selection resets the status line, the progress and the file status
    list only until the next round of a pending loop). An upload keeps every
    pending loop and adds at most one. When a timer fires, every other
    pending loop is still pending afterwards, in the same order, and the loop
    that fired is continued by at most one; a timer that does not exist
    changes nothing. *)
Theorem pending_loops_are_never_cancelled cb w e :
  match e with
  | Select selectedFiles =>
      timers (react cb w e) = timers w
      /\ files (view (react cb w e)) = selectedFiles
      /\ uploadStatus (view (react cb w e)) = ""
      /\ progress (view (react cb w e)) = None
      /\ processingDetails (view (react cb w e)) = []
  | Remove _ => timers (react cb w e) = timers w
  | Upload _ =>
      exists started,
        timers (react cb w e) = (timers w ++ started)%list /\ (length started <= 1)%nat
  | Timer i _ =>
      (forall j l,
          j <> i ->
          nth_error (timers w) j = Some l ->
          nth_error (timers (react cb w e)) (if (j <? i)%nat then j else pred j) = Some l)
      /\ (exists continued,
             timers (react cb w e)
             = ((firstn i (timers w) ++ skipn (S i) (timers w)) ++ continued)%list
             /\ (length continued <= 1)%nat)
      /\ (length (timers (react cb w e)) <= length (timers w))%nat
      /\ ((length (timers w) <= i)%nat -> react cb w e = w)
  end.
Proof.
  destruct e as [selected|index|server|i server]; cbn [react].
  - now repeat split.
  - reflexivity.
  - unfold settle. cbn [timers].
    destruct (next (handleUpload server (view w))); eexists; split; try reflexivity; cbn; lia.
  - destruct (nth_error (timers w) i) as [l|] eqn:Hi.
    + assert (Hlt : (i < length (timers w))%nat) by (apply nth_error_Some; now rewrite Hi).
      unfold settle. cbn [timers].
      set (continued := match next (tick cb l server (view w)) with
                        | Some l' => [l']
                        | None => []
                        end).
      assert (Hone : (length continued <= 1)%nat)
        by (unfold continued; destruct (next _); cbn; lia).
      split; [|split; [|split]].
      * intros j l' Hne Hj.
        pose proof (nth_error_without (timers w) i j l' Hne Hj) as Hkept.
        rewrite nth_error_app1; [exact Hkept|].
        apply nth_error_Some. now rewrite Hkept.
      * now exists continued.
      * rewrite !length_app, length_firstn, length_skipn. lia.
      * lia.
    + apply nth_error_None in Hi. split; [|split; [|split]].
      * intros j l Hne Hj.
        assert (j < length (timers w))%nat by (apply nth_error_Some; now rewrite Hj).
        replace (j <? i)%nat with true by (symmetry; apply Nat.ltb_lt; lia). exact Hj.
      * exists []. rewrite firstn_all2, skipn_all2 by lia. rewrite !app_nil_r.
        split; [reflexivity|cbn; lia].
      * lia.
      * reflexivity.
Qed.

(** ** White space and [handleKeyPress] *)

Lemma stripPrefix_Some p :
  forall s rest, stripPrefix p s = Some rest -> s = p ++ rest.
Proof.
  induction p as [|a p IH]; intros s rest H; cbn in H.
  - now inversion H.
  - destruct s as [|b s]; [discriminate|].
    destruct (Ascii.eqb a b) eqn:Hab; [|discriminate].
    apply Ascii.eqb_eq in Hab. subst b. cbn. f_equal. now apply IH.
Qed.

Lemma stripOneOf_Some prefixes :
  forall s rest,
    stripOneOf prefixes s = Some rest -> exists p, In p prefixes /\ s = p ++ rest.
Proof.
  induction prefixes as [|p others IH]; intros s rest H; cbn in H; [discriminate|].
  destruct (stripPrefix p s) as [rest'|] eqn:Hp.
  - inversion H; subst. exists p. split; [now left|now apply stripPrefix_Some].
  - destruct (IH s rest H) as (q & Hin & Hq). exists q. split; [now right|exact Hq].
Qed.

(** No white-space code point starts like another: a string that starts with
    one loses exactly that one. *)
Lemma stripOneOf_whiteSpace w rest :
  In w whiteSpace -> stripOneOf whiteSpace (w ++ rest) = Some rest.
Proof.
  intros Hin. unfold whiteSpace in Hin. cbn in Hin.
  repeat (destruct Hin as [<-|Hin]; [reflexivity|]). contradiction.
Qed.

Lemma whiteSpace_not_empty w : In w whiteSpace -> exists a w', w = String a w'.
Proof.
  intros Hin. unfold whiteSpace in Hin. cbn in Hin.
  repeat (destruct Hin as [<-|Hin]; [eexists _, _; reflexivity|]). contradiction.
Qed.

Lemma blankWithin_more fuel :
  forall s fuel', blankWithin fuel s = true -> (fuel <= fuel')%nat -> blankWithin fuel' s = true.
Proof.
  induction fuel as [|fuel IH]; intros s fuel' H Hle.
  - destruct s; [now destruct fuel'|discriminate].
  - destruct s as [|a s]; [now destruct fuel'|].
    destruct fuel' as [|fuel']; [lia|].
    cbn [blankWithin] in *.
    destruct (stripOneOf whiteSpace (String a s)) as [rest|]; [|discriminate].
    apply IH; [exact H|lia].
Qed.

Lemma blankWithin_spaces fuel :
  forall s, blankWithin fuel s = true ->
            exists ws, Forall (fun w => In w whiteSpace) ws /\ s = spaces ws.
Proof.
  induction fuel as [|fuel IH]; intros s H.
  - destruct s; [|discriminate]. exists []. now split.
  - destruct s as [|a s]; [exists []; now split|].
    cbn [blankWithin] in H.
    destruct (stripOneOf whiteSpace (String a s)) as [rest|] eqn:Hstrip; [|discriminate].
    destruct (stripOneOf_Some whiteSpace _ _ Hstrip) as (w & Hin & Hs).
    destruct (IH rest H) as (ws & Hall & Hrest).
    exists (w :: ws). split; [now constructor|].
    cbn [spaces fold_right]. fold (spaces ws). now rewrite <- Hrest.
Qed.

(** [!question.trim()] holds exactly of the strings made of the white-space
    code points, the empty string among them. *)
Lemma blank_spec question :
  blank question = true
  <-> exists ws, Forall (fun w => In w whiteSpace) ws /\ question = spaces ws.
Proof.
  split; [apply blankWithin_spaces|].
  intros (ws & Hall & ->). unfold blank.
  induction Hall as [|w ws Hw _ IH]; [reflexivity|].
  cbn [spaces fold_right]. fold (spaces ws).
  destruct (whiteSpace_not_empty w Hw) as (a & w' & ->).
  cbn [append String.length blankWithin].
  change (String a (w' ++ spaces ws)) with (String a w' ++ spaces ws).
  rewrite (stripOneOf_whiteSpace (String a w') (spaces ws) Hw).
  apply (blankWithin_more (String.length (spaces ws))); [exact IH|].
  clear. induction w' as [|b w' IHw]; cbn; lia.
Qed.

(** X15. A key press sends a query exactly when it is Enter with Ctrl held
    and the question is not made of white space only (of the code points
    that [trim] removes; the empty question is made of none); every other
    key press does nothing. A query that is sent is one request,
    [POST /query]. *)
Theorem query_is_sent_on_ctrl_enter key ctrlKey question server :
  let sent := fst (handleKeyPress key ctrlKey question server) in
  (sent = [] \/ sent = [Fetch "POST" "http://localhost:8000/query"])
  /\ (sent <> []
      <-> key = "Enter" /\ ctrlKey = true
          /\ ~ exists ws, Forall (fun w => In w whiteSpace) ws /\ question = spaces ws).
Proof.
  cbv zeta. unfold handleKeyPress, handleQuery.
  destruct (String.eqb key "Enter") eqn:Hkey; cbn [andb].
  - apply String.eqb_eq in Hkey. destruct ctrlKey.
    + destruct (blank question) eqn:Hblank.
      * split; [now left|]. split; [intros H; now contradiction H|].
        intros (_ & _ & Hnot). apply blank_spec in Hblank. contradiction.
      * split; [right; now destruct (server question)|].
        split; [|destruct (server question); discriminate].
        intros _. repeat split; [exact Hkey|].
        intros Hws. apply blank_spec in Hws. congruence.
    + split; [now left|]. split; [intros H; now contradiction H|].
      intros (_ & Hctrl & _). discriminate.
  - apply String.eqb_neq in Hkey.
    split; [now left|]. split; [intros H; now contradiction H|].
    intros (Hk & _). contradiction.
Qed.
